(** * FLARE signal-processing core: a shallow embedding and its properties

    The functions of [api/utils.py] (distance estimation, signal quality,
    navigation guidance, heat-map cell classification, trilateration) and
    the [grid] action of [HeatMapDataViewSet] in [api/views.py] are
    transcribed below, statement by statement, into Rocq functions.

    Conventions of the embedding.
    - A Python [int] is a [Z].
    - A Python [float] is an exact number: a canonical rational [Qc] where
      the code only adds, multiplies, divides, compares and rounds, and a
      real [R] in [calculate_distance_from_rssi], whose [math.pow] leaves
      the rationals.  The rounding error of binary64 is not modelled, and
      its range is modelled at the one place where the source handles it:
      [math.pow] raises [OverflowError] when the power exceeds the largest
      finite binary64 number.
    - Exceptions are values: a computation is a [result], either
      [Return v] or [Raise e], and [try ... except] is [try_except].
    - A [dict] whose keys vary is a [gmap]; a dict or model instance with
      a fixed set of fields is a record. *)

From Stdlib Require Import ZArith QArith Qcanon Qround Qcabs Reals Lra Lia.
From Stdlib Require Import Ascii.
From stdpp Require Import base numbers gmap strings list pretty.

(** ** The Python runtime used by the code *)

Module Py.

(** The built-in exceptions the code can raise or names in a handler.
    None of them is a subclass of another. *)
Inductive exn : Set :=
| KeyError
| ValueError
| OverflowError
| ZeroDivisionError.

Global Instance exn_eq_dec : EqDecision exn.
Proof. solve_decision. Defined.

Inductive result (A : Type) : Type :=
| Return (a : A)
| Raise (e : exn).
Global Arguments Return {A} a.
Global Arguments Raise {A} e.

Global Instance result_ret : MRet result := @Return.
Global Instance result_bind : MBind result := λ A B k m,
  match m with
  | Return a => k a
  | Raise e => Raise e
  end.

(** [try: body except handled: handler]. *)
Definition try_except {A} (body : result A) (handled : list exn)
    (handler : exn → result A) : result A :=
  match body with
  | Return a => Return a
  | Raise e => if decide (e ∈ handled) then handler e else Raise e
  end.

(** The values stored in the dictionaries the code returns. *)
Inductive value : Type :=
| Str (s : string)
| Int (z : Z)
| Float (q : Qc).

(** [d[k]] on a dictionary. *)
Definition getitem {V} (d : gmap string V) (k : string) : result V :=
  match d !! k with
  | Some v => Return v
  | None => Raise KeyError
  end.

(** [range(a, b)]. *)
Definition range (a b : Z) : list Z := seqZ a (b - a).

(** [min(...)] and [max(...)] over a sequence of integers: [ValueError]
    on an empty one. *)
Definition min (l : list Z) : result Z :=
  match l with
  | [] => Raise ValueError
  | x :: l' => Return (foldl Z.min x l')
  end.

Definition max (l : list Z) : result Z :=
  match l with
  | [] => Raise ValueError
  | x :: l' => Return (foldl Z.max x l')
  end.


(** Rounding to the nearest integer, ties to the even one, from the
    floor [f] of the number and the comparison [c] of its fractional
    part with one half. *)
Definition half_even (f : Z) (c : comparison) : Z :=
  match c with
  | Lt => f
  | Gt => (f + 1)%Z
  | Eq => if Z.even f then f else (f + 1)%Z
  end.

(** *** Floats as rationals *)

Definition float_of_int (z : Z) : Qc := Qc_of_Z z.

(** A float literal, written as a decimal: [lit 0.3], [lit (-70)]. *)
Definition lit (q : Q) : Qc := Q2Qc q.

(** [a / b]. *)
Definition truediv (a b : Qc) : result Qc :=
  if decide (b = 0%Qc) then Raise ZeroDivisionError else Return (a / b)%Qc.

Definition floor (q : Qc) : Z := Qfloor (this q).

Definition nearest (q : Qc) : Z :=
  let f := floor q in
  half_even f ((q - float_of_int f) ?= lit 0.5)%Qc.

(** [round(q, ndigits)] for [ndigits >= 0]. *)
Definition round (q : Qc) (ndigits : nat) : Qc :=
  let scale := float_of_int (10 ^ Z.of_nat ndigits) in
  (float_of_int (nearest (q * scale)) / scale)%Qc.

(** [min(a, b)] on floats: [b] when it is smaller, else [a]. *)
Definition min2 (a b : Qc) : Qc := if decide (b < a)%Qc then b else a.


(** *** Floats as reals, for [math.pow] *)

(** The largest finite binary64 number. *)
Definition float_max : R := IZR ((2 ^ 53 - 1) * 2 ^ 971).

Definition rtruediv (a b : R) : result R :=
  if Req_dec_T b 0%R then Raise ZeroDivisionError else Return (a / b)%R.

(** [math.pow(x, y)]: a domain error is a [ValueError], a result out of
    range an [OverflowError]. *)
Definition math_pow (x y : R) : result R :=
  r ← (if Rlt_dec 0 x then Return (Rpower x y)
       else if Req_dec_T x 0%R then
         if Rlt_dec y 0 then Raise ValueError
         else if Req_dec_T y 0%R then Return 1%R else Return 0%R
       else if Req_dec_T (IZR (Int_part y)) y
         then Return (powerRZ x (Int_part y))
         else Raise ValueError);
  if Rlt_dec float_max (Rabs r) then Raise OverflowError else Return r.

Definition rcompare (a b : R) : comparison :=
  if Rlt_dec a b then Lt else if Rlt_dec b a then Gt else Eq.

Definition rnearest (x : R) : Z :=
  half_even (Int_part x) (rcompare (frac_part x) (1 / 2)%R).

Definition rround (x : R) (ndigits : nat) : R :=
  (IZR (rnearest (x * 10 ^ ndigits)) / 10 ^ ndigits)%R.

End Py.

Import Py.

(** ** [api/utils.py] *)

Definition default_tx_power : Z := (-59)%Z.
Definition default_environment_factor : R := 2%R.

(** [calculate_distance_from_rssi(rssi, tx_power=-59, environment_factor=2.0)] *)
Definition calculate_distance_from_rssi (rssi tx_power : Z)
    (environment_factor : R) : result R :=
  if decide (rssi >= 0)%Z then Return 0%R
  else
    try_except
      (ratio ← rtruediv (IZR (tx_power - rssi)) (10 * environment_factor)%R;
       distance ← math_pow 10 ratio;
       Return (rround distance 2))
      [ValueError; OverflowError]
      (λ _, Return 999%R).

(** [get_signal_quality(rssi)] *)
Definition get_signal_quality (rssi : Z) : string * string :=
  if decide (rssi >= -50)%Z then ("excellent", "Excellent - Very close")
  else if decide (rssi >= -60)%Z then ("good", "Good - Within 5m")
  else if decide (rssi >= -70)%Z then ("fair", "Fair - Within 10m")
  else if decide (rssi >= -80)%Z then ("weak", "Weak - Within 20m")
  else if decide (rssi >= -90)%Z then ("very_weak", "Very Weak - Far away")
  else ("minimal", "Minimal - At range limit").


(** [get_navigation_guidance(current_rssi, previous_rssi, threshold=3)] *)
Definition get_navigation_guidance (current_rssi : Z)
    (previous_rssi : option Z) (threshold : Z) : result (gmap string value) :=
  match previous_rssi with
  | None =>
      Return {[ "direction" := Str "unknown";
                "message" := Str "Start moving to calibrate direction";
                "confidence" := Float (lit 0.0) ]}
  | Some previous_rssi =>
      let change := (current_rssi - previous_rssi)%Z in
      if decide (Z.abs change < threshold)%Z then
        Return {[ "direction" := Str "stable";
                  "message" :=
                    Str "Signal stable - try moving in a different direction";
                  "confidence" := Float (lit 0.3);
                  "rssi_change" := Int change ]}
      else if decide (change > 0)%Z then
        ratio ← truediv (float_of_int (Z.abs change)) (lit 10.0);
        let confidence := min2 (lit 1.0) ratio in
        Return {[ "direction" := Str "closer";
                  "message" :=
                    Str "Getting closer! Keep going this direction ✓";
                  "confidence" := Float confidence;
                  "rssi_change" := Int change ]}
      else
        ratio ← truediv (float_of_int (Z.abs change)) (lit 10.0);
        let confidence := min2 (lit 1.0) ratio in
        Return {[ "direction" := Str "farther";
                  "message" := Str "Moving away - turn around ↺";
                  "confidence" := Float confidence;
                  "rssi_change" := Int change ]}
  end.


(** Arithmetic on computations that may raise, for expressions such as
    [b2['x'] - b1['x']]: the left operand is evaluated first. *)
Definition lift2 {A B C} (f : A → B → C) (a : result A) (b : result B)
    : result C :=
  u ← a; v ← b; Return (f u v).

Declare Scope py_scope.
Delimit Scope py_scope with py.
Notation "a + b" := (lift2 Qcplus a b) : py_scope.
Notation "a - b" := (lift2 Qcminus a b) : py_scope.
Notation "a * b" := (lift2 Qcmult a b) : py_scope.
Notation "a ^ n" := (lift2 Qcpower a (Return n%nat)) : py_scope.
Notation "b .[ k ]" := (getitem b k)
  (at level 1, left associativity, format "b .[ k ]") : py_scope.
Notation "'int' z" := (Return (float_of_int z%Z))
  (at level 9, z at level 9) : py_scope.

(** [b1, b2, b3 = l]. *)
Definition unpack3 {A} (l : list A) : result (A * A * A) :=
  match l with
  | [b1; b2; b3] => Return (b1, b2, b3)
  | _ => Raise ValueError
  end.

(** [estimate_position_from_beacons(beacon_distances)]; the result [None]
    of the source is [Return None].  The coordinates and distances are
    floats, taken as exact rationals: [v ** 2] is the exact square, and the
    range of binary64, beyond which CPython's [**] raises [OverflowError],
    is not part of this embedding. *)
Definition estimate_position_from_beacons
    (beacon_distances : list (gmap string Qc)) : result (option (Qc * Qc)) :=
  if decide (length beacon_distances < 3)%nat then Return None
  else
    try_except
      ('(b1, b2, b3) ← unpack3 (take 3 beacon_distances);
       A ← (int 2 * (b2.["x"] - b1.["x"]))%py;
       B ← (int 2 * (b2.["y"] - b1.["y"]))%py;
       C ← (b1.["distance"] ^ 2 - b2.["distance"] ^ 2 - b1.["x"] ^ 2
            + b2.["x"] ^ 2 - b1.["y"] ^ 2 + b2.["y"] ^ 2)%py;
       D ← (int 2 * (b3.["x"] - b2.["x"]))%py;
       E ← (int 2 * (b3.["y"] - b2.["y"]))%py;
       F ← (b2.["distance"] ^ 2 - b3.["distance"] ^ 2 - b2.["x"] ^ 2
            + b3.["x"] ^ 2 - b2.["y"] ^ 2 + b3.["y"] ^ 2)%py;
       let denominator := (A * E - B * D)%Qc in
       if decide (Qcabs denominator < lit 0.0001)%Qc then Return None
       else
         x ← truediv (C * E - B * F)%Qc denominator;
         y ← truediv (A * F - C * D)%Qc denominator;
         Return (Some (round x 2, round y 2)))
      [KeyError; ZeroDivisionError; ValueError]
      (λ _, Return None).

(** ** [api/views.py]: the [grid] action of [HeatMapDataViewSet] *)

(** A row of the [heat_map_data] table; only the columns the action reads. *)
Module HeatMapData.
Record t : Type := Make {
  grid_x : Z;
  grid_y : Z;
  signal_strength : Z;
  cell_status : string
}.
End HeatMapData.

(** A cell of the answer, the dictionary with the keys ['x'], ['y'],
    ['status'] and ['signal_strength']; [None] is Python's [None]. *)
Module Cell.
Record t : Type := Make {
  x : Z;
  y : Z;
  status : string;
  signal_strength : option Z
}.
End Cell.

(** The body of the answer. *)
Module GridResponse.
Record t : Type := Make {
  grid : list (list Cell.t);
  min_x : Z;
  max_x : Z;
  min_y : Z;
  max_y : Z;
  cell_count : nat
}.
End GridResponse.

(** The action from [data_points] on: the rows of the session, in the order
    the query yields them.  The loops that append to [row] and [grid_2d]
    are left folds. *)
Definition HeatMapDataViewSet_grid (data_points : list HeatMapData.t)
    : result GridResponse.t :=
  if decide (data_points = []) then
    Return (GridResponse.Make [] 0 0 0 0 0)
  else
    min_x ← Py.min (HeatMapData.grid_x <$> data_points);
    max_x ← Py.max (HeatMapData.grid_x <$> data_points);
    min_y ← Py.min (HeatMapData.grid_y <$> data_points);
    max_y ← Py.max (HeatMapData.grid_y <$> data_points);
    let grid : gmap (Z * Z) Cell.t :=
      foldl
        (λ grid point,
           let key := (HeatMapData.grid_x point, HeatMapData.grid_y point) in
           <[key := Cell.Make (HeatMapData.grid_x point)
                      (HeatMapData.grid_y point)
                      (HeatMapData.cell_status point)
                      (Some (HeatMapData.signal_strength point))]> grid)
        ∅ data_points in
    let grid_2d :=
      foldl
        (λ grid_2d y,
           let row :=
             foldl
               (λ row x,
                  let cell :=
                    default (Cell.Make x y "unknown" None) (grid !! (x, y)) in
                  row ++ [cell])
               [] (range min_x (max_x + 1)) in
           grid_2d ++ [row])
        [] (range min_y (max_y + 1)) in
    Return (GridResponse.Make grid_2d min_x max_x min_y max_y
              (length data_points)).

(** ** The other functions of [api/utils.py] *)




(** [string.ascii_uppercase] and [string.digits]. *)
Definition ascii_uppercase : string := "ABCDEFGHIJKLMNOPQRSTUVWXYZ".
Definition digits : string := "0123456789".

(** [s.replace(c, '')] for a single character [c]. *)
Fixpoint remove_char (c : Ascii.ascii) (s : string) : string :=
  match s with
  | EmptyString => EmptyString
  | String a s' =>
      if decide (a = c) then remove_char c s'
      else String a (remove_char c s')
  end.

(** [l[i]] on a sequence, with Python's negative indices; [None] stands
    for [IndexError]. *)
Definition list_getitem {A} (l : list A) (i : Z) : option A :=
  if decide (0 ≤ i)%Z then l !! Z.to_nat i
  else if decide (- Z.of_nat (length l) ≤ i)%Z
       then l !! Z.to_nat (Z.of_nat (length l) + i)
       else None.

(** [random.choices(population, k=k)]: each of the [k] elements is
    [population[floor(random() * n)]]; [random i] is the number the [i]-th
    call of [random()] returns. *)
Definition random_choices {A} (population : list A) (k : Z)
    (random : nat → Qc) : option (list A) :=
  let n := float_of_int (Z.of_nat (length population)) in
  mapM (λ i, list_getitem population (floor (random i * n)))
    (seq 0 (Z.to_nat k)).

(** [generate_group_code(length=6)] *)
Definition generate_group_code (length : Z) (random : nat → Qc)
    : option string :=
  let characters := ascii_uppercase +:+ digits in
  let characters :=
    remove_char "1"%char
      (remove_char "I"%char
         (remove_char "0"%char (remove_char "O"%char characters))) in
  String.string_of_list_ascii
    <$> random_choices (String.list_ascii_of_string characters) length random.

(** ** The other actions of [api/views.py] *)

(** The answers of the two calculation endpoints, from the validated data
    on. *)
Module NavigationResponse.
Record t : Type := Make {
  beacon_id : string;
  estimated_distance : R;
  formatted_distance : string;
  signal_quality : string * string;
  navigation : gmap string value;
  rssi : Z
}.
End NavigationResponse.


Module DistanceResponse.
Record t : Type := Make {
  rssi : Z;
  tx_power : Z;
  environment_factor : R;
  estimated_distance_meters : R;
  formatted_distance : string;
  signal_quality : string * string
}.
End DistanceResponse.


(** A row of the [sos_beacons] table; the columns the [active] action
    filters on. *)
Module SOSBeacon.
Record t : Type := Make {
  device_id : string;
  mode : string;
  status : string;
  private_group_id : option string
}.
End SOSBeacon.

(** The truth value of an optional query parameter. *)
Definition truthy (s : option string) : Prop :=
  match s with
  | Some s => s ≠ ""
  | None => False
  end.

Global Instance truthy_dec (s : option string) : Decision (truthy s).
Proof. destruct s; apply _. Defined.

(** [SOSBeaconViewSet.active]: the beacons it serializes, from the rows of
    the table and the query parameters [mode] and [group_id]. A group id
    that is given is taken to be a well-formed UUID, which the lookup on
    the foreign key compares with the column. *)
Definition SOSBeaconViewSet_active (mode group_id : option string)
    (beacons : list SOSBeacon.t) : list SOSBeacon.t :=
  let mode := default "public" mode in
  let queryset := filter (λ b, SOSBeacon.status b = "active") beacons in
  if decide (mode = "public") then
    filter (λ b, SOSBeacon.mode b = "public") queryset
  else if decide (mode = "professional") then
    filter (λ b, SOSBeacon.mode b ∈ ["public"; "professional"]) queryset
  else if decide (mode = "private" ∧ truthy group_id) then
    filter (λ b, SOSBeacon.mode b = "private"
                 ∧ SOSBeacon.private_group_id b = group_id) queryset
  else queryset.

(** [BeaconDetectionViewSet.batch_create], over a list of submitted
    detections; [validate d] is [None] when the serializer accepts [d] and
    the errors it reports otherwise. *)
Module BatchCreateResponse.
Inductive t (D E : Type) : Type :=
| BadRequest
| Result (status : Z) (created : nat) (errors : list (D * E)).
Global Arguments BadRequest {D E}.
Global Arguments Result {D E} status created errors.
End BatchCreateResponse.

Definition BeaconDetectionViewSet_batch_create {D E}
    (validate : D → option E) (detections : list D)
    : BatchCreateResponse.t D E :=
  if decide (detections = []) then BatchCreateResponse.BadRequest
  else
    let '(created, errors) :=
      foldl
        (λ '(created, errors) detection_data,
           match validate detection_data with
           | None => (created ++ [detection_data], errors)
           | Some e => (created, errors ++ [(detection_data, e)])
           end)
        ([], []) detections in
    BatchCreateResponse.Result
      (if decide (created = []) then 400 else 201)
      (length created) errors.

(** The [heat_map_data] table as [batch_update] writes it: the key is the
    triple that the model declares unique together, the session with the
    two grid coordinates, and a row holds the columns the action sets. *)
Module HeatMapRow.
Record t : Type := Make {
  signal_strength : Z;
  cell_status : string;
  latitude : option Qc;
  longitude : option Qc
}.
End HeatMapRow.

(** A cell of the request body: a JSON object, [None] for a key it does
    not have. *)
Module CellUpdate.
Record t : Type := Make {
  x : option Z;
  y : option Z;
  signal_strength : option Z;
  status : option string;
  latitude : option Qc;
  longitude : option Qc
}.
End CellUpdate.

(** [HeatMapData.objects.update_or_create(rescue_session=..., grid_x=...,
    grid_y=..., defaults=...)]: the row with that key is created, or its
    columns are overwritten. *)
Definition update_or_create (table : gmap (string * (Z * Z)) HeatMapRow.t)
    (rescue_session : string) (grid_x grid_y : Z) (defaults : HeatMapRow.t)
    : gmap (string * (Z * Z)) HeatMapRow.t :=
  <[(rescue_session, (grid_x, grid_y)) := defaults]> table.

Module BatchUpdateResponse.
Inductive t : Type :=
| BadRequest
| NotFound
| Updated (updated : nat) (session_id : string).
End BatchUpdateResponse.

(** [HeatMapDataViewSet.batch_update]; [sessions] holds the ids of the
    rescue sessions that exist. A session id that is given is taken to be
    a well-formed UUID, and the coordinates and the signal strength of a
    cell, where present, to be integers. *)
Definition HeatMapDataViewSet_batch_update (sessions : gset string)
    (session_id : option string) (cells : list CellUpdate.t)
    (table : gmap (string * (Z * Z)) HeatMapRow.t)
    : BatchUpdateResponse.t * gmap (string * (Z * Z)) HeatMapRow.t :=
  if decide (¬ truthy session_id ∨ cells = []) then
    (BatchUpdateResponse.BadRequest, table)
  else
    let session := default "" session_id in
    if decide (session ∈ sessions) then
      let '(updated, table) :=
        foldl
          (λ '(updated, table) cell,
             (S updated,
              update_or_create table session
                (default 0%Z (CellUpdate.x cell))
                (default 0%Z (CellUpdate.y cell))
                (HeatMapRow.Make
                   (default 0%Z (CellUpdate.signal_strength cell))
                   (default "unknown" (CellUpdate.status cell))
                   (CellUpdate.latitude cell)
                   (CellUpdate.longitude cell))))
          (0%nat, table) cells in
      (BatchUpdateResponse.Updated updated session, table)
    else (BatchUpdateResponse.NotFound, table).

(** [HeatMapData.objects.filter(rescue_session_id=session_id)], read in the
    order in which the map lists its entries. *)
Definition session_points (table : gmap (string * (Z * Z)) HeatMapRow.t)
    (session_id : string) : list HeatMapData.t :=
  omap
    (λ entry : string * (Z * Z) * HeatMapRow.t,
       if decide (entry.1.1 = session_id) then
         Some (HeatMapData.Make entry.1.2.1 entry.1.2.2
                 (HeatMapRow.signal_strength entry.2)
                 (HeatMapRow.cell_status entry.2))
       else None)
    (map_to_list table).

(** ** Reference definitions, following the words of the specification *)

(** The exponent of the log-distance path-loss formula, and the inputs at
    which its power leaves the range of binary64. *)
Definition path_loss_ratio (rssi tx_power : Z) (environment_factor : R) : R :=
  (IZR (tx_power - rssi) / (10 * environment_factor))%R.





(** An anchor of the trilateration, and the dictionary the code reads it
    from. *)
Module Anchor.
Record t : Type := Make {
  x : Qc;
  y : Qc;
  distance : Qc
}.

Definition to_dict (p : t) : gmap string Qc :=
  {[ "x" := x p; "y" := y p; "distance" := distance p ]}.
End Anchor.

(** The two linear equations obtained by subtracting the circle of the
    second anchor from the first, and of the third from the second:
    [A x + B y = C] and [D x + E y = F]. *)
Section LinearSystem.
Context (p1 p2 p3 : Anchor.t).

Definition coef_A : Qc := (Qc_of_Z 2 * (Anchor.x p2 - Anchor.x p1))%Qc.
Definition coef_B : Qc := (Qc_of_Z 2 * (Anchor.y p2 - Anchor.y p1))%Qc.
Definition coef_C : Qc :=
  (Anchor.distance p1 ^ 2 - Anchor.distance p2 ^ 2
   - Anchor.x p1 ^ 2 + Anchor.x p2 ^ 2
   - Anchor.y p1 ^ 2 + Anchor.y p2 ^ 2)%Qc.
Definition coef_D : Qc := (Qc_of_Z 2 * (Anchor.x p3 - Anchor.x p2))%Qc.
Definition coef_E : Qc := (Qc_of_Z 2 * (Anchor.y p3 - Anchor.y p2))%Qc.
Definition coef_F : Qc :=
  (Anchor.distance p2 ^ 2 - Anchor.distance p3 ^ 2
   - Anchor.x p2 ^ 2 + Anchor.x p3 ^ 2
   - Anchor.y p2 ^ 2 + Anchor.y p3 ^ 2)%Qc.

Definition denom : Qc := (coef_A * coef_E - coef_B * coef_D)%Qc.

Definition solution : Qc * Qc :=
  ((coef_C * coef_E - coef_B * coef_F) / denom,
   (coef_A * coef_F - coef_C * coef_D) / denom)%Qc.
End LinearSystem.

(** The anchor [p] lies at its recorded distance from the point
    [(px, py)]. *)
Definition at_distance (p : Anchor.t) (px py : Qc) : Prop :=
  (Anchor.distance p ^ 2
   = (px - Anchor.x p) ^ 2 + (py - Anchor.y p) ^ 2)%Qc.

(** A field [k] of a returned dictionary holds [v]. *)
Definition returns_field (r : result (gmap string value)) (k : string)
    (v : value) : Prop :=
  ∃ d, r = Return d ∧ d !! k = Some v.


(** The heat-map grid: the cell the answer holds for a row of the table,
    the cell synthesized where nothing was recorded, the row submitted
    last at a position, and the cell the grid must show there. *)
Definition cell_of_point (p : HeatMapData.t) : Cell.t :=
  Cell.Make (HeatMapData.grid_x p) (HeatMapData.grid_y p)
    (HeatMapData.cell_status p) (Some (HeatMapData.signal_strength p)).

Definition unknown_cell (x y : Z) : Cell.t := Cell.Make x y "unknown" None.

Definition point_key (p : HeatMapData.t) : Z * Z :=
  (HeatMapData.grid_x p, HeatMapData.grid_y p).

(** One step of the loop that fills the dictionary of cells. *)
Definition record_point (grid : gmap (Z * Z) Cell.t) (point : HeatMapData.t)
    : gmap (Z * Z) Cell.t :=
  <[point_key point := cell_of_point point]> grid.

Definition last_submitted (x y : Z) (data_points : list HeatMapData.t)
    : option HeatMapData.t :=
  last (filter (λ p, point_key p = (x, y)) data_points).

Definition expected_cell (data_points : list HeatMapData.t) (x y : Z)
    : Cell.t :=
  from_option cell_of_point (unknown_cell x y)
    (last_submitted x y data_points).

(** The dense grid the specification describes: rows by [y] ascending,
    cells of a row by [x] ascending, over the bounding box. *)
Definition dense_grid (data_points : list HeatMapData.t)
    (min_x max_x min_y max_y : Z) : list (list Cell.t) :=
  (λ y, (λ x, expected_cell data_points x y) <$> range min_x (max_x + 1))
    <$> range min_y (max_y + 1).

(** [m] is the least, or the greatest, of the integers [l]. *)
Definition is_least (m : Z) (l : list Z) : Prop :=
  m ∈ l ∧ ∀ z, z ∈ l → (m ≤ z)%Z.

Definition is_greatest (m : Z) (l : list Z) : Prop :=
  m ∈ l ∧ ∀ z, z ∈ l → (z ≤ m)%Z.

(** The cell at row [i] and column [j] of a dense grid. *)
Definition cell_at (grid : list (list Cell.t)) (i j : nat) : option Cell.t :=
  grid !! i ≫= λ row, row !! j.

(** The position a cell of a batch is stored at, the row stored for it,
    and the row of the table as the grid action reads it. *)
Definition cell_key (cell : CellUpdate.t) : Z * Z :=
  (default 0%Z (CellUpdate.x cell), default 0%Z (CellUpdate.y cell)).

Definition cell_row (cell : CellUpdate.t) : HeatMapRow.t :=
  HeatMapRow.Make (default 0%Z (CellUpdate.signal_strength cell))
    (default "unknown" (CellUpdate.status cell))
    (CellUpdate.latitude cell) (CellUpdate.longitude cell).

(** One step of the loop of [batch_update], on the table alone. *)
Definition store_cell (session : string)
    (table : gmap (string * (Z * Z)) HeatMapRow.t) (cell : CellUpdate.t)
    : gmap (string * (Z * Z)) HeatMapRow.t :=
  <[(session, cell_key cell) := cell_row cell]> table.

Definition point_of_row (key : Z * Z) (row : HeatMapRow.t) : HeatMapData.t :=
  HeatMapData.Make key.1 key.2 (HeatMapRow.signal_strength row)
    (HeatMapRow.cell_status row).

Definition point_of_cell (cell : CellUpdate.t) : HeatMapData.t :=
  point_of_row (cell_key cell) (cell_row cell).

(** A computation raises no exception outside [handled]. *)
Definition raises_within {A} (handled : list exn) (r : result A) : Prop :=
  ∀ e, r = Raise e → e ∈ handled.

(** * Properties *)

(** ** Signal quality *)

(** C9: the quality level is decided by the ladder -50, -60, -70, -80, -90
    with inclusive lower bounds, each level being returned on exactly one
    band; -60 is good, -50 excellent and -95 minimal. *)
Theorem get_signal_quality_ladder (rssi : Z) :
  let level := (get_signal_quality rssi).1 in
  (level = "excellent" ↔ -50 ≤ rssi)%Z ∧
  (level = "good" ↔ -60 ≤ rssi < -50)%Z ∧
  (level = "fair" ↔ -70 ≤ rssi < -60)%Z ∧
  (level = "weak" ↔ -80 ≤ rssi < -70)%Z ∧
  (level = "very_weak" ↔ -90 ≤ rssi < -80)%Z ∧
  (level = "minimal" ↔ rssi < -90)%Z ∧
  (get_signal_quality (-60)).1 = "good" ∧
  (get_signal_quality (-50)).1 = "excellent" ∧
  (get_signal_quality (-95)).1 = "minimal".
Proof.
  unfold get_signal_quality.
  repeat case_decide; simpl;
    repeat split; intros; first [ lia | discriminate | reflexivity ].
Qed.

(** ** Navigation guidance *)

Lemma truediv_nonzero (a b : Qc) :
  b ≠ 0%Qc → truediv a b = Return (a / b)%Qc.
Proof. intros Hb. unfold truediv. by case_decide. Qed.

Lemma lit_ten_nonzero : lit 10.0 ≠ 0%Qc.
Proof. by compute. Qed.





(** ** Heat-map cell classification *)









(** ** Trilateration *)

Lemma bind_Return {A B} (a : A) (k : A → result B) : (Return a ≫= k) = k a.
Proof. reflexivity. Qed.

Lemma lift2_Return {A B C} (f : A → B → C) (a : A) (b : B) :
  lift2 f (Return a) (Return b) = Return (f a b).
Proof. reflexivity. Qed.

Lemma getitem_x (p : Anchor.t) :
  getitem (Anchor.to_dict p) "x" = Return (Anchor.x p).
Proof. reflexivity. Qed.

Lemma getitem_y (p : Anchor.t) :
  getitem (Anchor.to_dict p) "y" = Return (Anchor.y p).
Proof. reflexivity. Qed.

Lemma getitem_distance (p : Anchor.t) :
  getitem (Anchor.to_dict p) "distance" = Return (Anchor.distance p).
Proof. reflexivity. Qed.

Lemma Qcabs_small_0 : (Qcabs 0 < lit 0.0001)%Qc.
Proof. by vm_compute. Qed.

(** What the code computes from three well-formed anchors, whatever
    follows them in the list. *)
Lemma estimate_position_three (p1 p2 p3 : Anchor.t)
    (rest : list (gmap string Qc)) :
  estimate_position_from_beacons
    (Anchor.to_dict p1 :: Anchor.to_dict p2 :: Anchor.to_dict p3 :: rest)
  = if decide (Qcabs (denom p1 p2 p3) < lit 0.0001)%Qc then Return None
    else Return (Some (round (solution p1 p2 p3).1 2,
                       round (solution p1 p2 p3).2 2)).
Proof.
  unfold estimate_position_from_beacons.
  rewrite decide_False by (simpl; lia).
  change (take 3 _) with [Anchor.to_dict p1; Anchor.to_dict p2; Anchor.to_dict p3].
  unfold unpack3. rewrite bind_Return.
  rewrite !getitem_x, !getitem_y, !getitem_distance.
  rewrite !lift2_Return, !bind_Return. unfold float_of_int.
  fold (coef_A p1 p2) (coef_B p1 p2) (coef_C p1 p2).
  fold (coef_D p2 p3) (coef_E p2 p3) (coef_F p2 p3).
  fold (denom p1 p2 p3).
  case_decide as Hsmall; [done |].
  assert (denom p1 p2 p3 ≠ 0%Qc) as Hnz.
  { intros Hz. apply Hsmall. rewrite Hz. apply Qcabs_small_0. }
  rewrite !(truediv_nonzero _ _ Hnz). by rewrite !bind_Return.
Qed.

(** *** Which exceptions the body of the [try] can raise *)

Section RaisesWithin.
Context (handled : list exn).

Lemma raises_within_Return {A} (a : A) : raises_within handled (Return a).
Proof. intros e He. discriminate. Qed.

Lemma raises_within_bind {A B} (m : result A) (k : A → result B) :
  raises_within handled m →
  (∀ a, raises_within handled (k a)) →
  raises_within handled (m ≫= k).
Proof.
  intros Hm Hk e. destruct m as [a | e']; simpl.
  - apply Hk.
  - intros [= <-]. by apply Hm.
Qed.

Lemma raises_within_lift2 {A B C} (f : A → B → C) (a : result A)
    (b : result B) :
  raises_within handled a →
  raises_within handled b →
  raises_within handled (lift2 f a b).
Proof.
  intros Ha Hb. unfold lift2.
  apply raises_within_bind; [done |]. intros u.
  apply raises_within_bind; [done |]. intros v.
  apply raises_within_Return.
Qed.

Lemma raises_within_getitem {V} (d : gmap string V) (k : string) :
  KeyError ∈ handled → raises_within handled (getitem d k).
Proof.
  intros Hin e. unfold getitem. destruct (d !! k); [done |].
  by intros [= <-].
Qed.

Lemma raises_within_truediv (a b : Qc) :
  ZeroDivisionError ∈ handled → raises_within handled (truediv a b).
Proof.
  intros Hin e. unfold truediv. case_decide; [| done].
  by intros [= <-].
Qed.

Lemma raises_within_unpack3 {A} (l : list A) :
  ValueError ∈ handled → raises_within handled (unpack3 l).
Proof.
  intros Hin e. unfold unpack3.
  destruct l as [|? [|? [|? [|? ?]]]]; (done || by intros [= <-]).
Qed.


Lemma try_except_unhandled {A} (body : result A) (e : exn)
    (handler : exn → result A) :
  body = Raise e → e ∉ handled → try_except body handled handler = Raise e.
Proof. intros -> Hnot. unfold try_except. by rewrite decide_False. Qed.

End RaisesWithin.

Create HintDb raises discriminated.
#[local] Hint Resolve raises_within_Return raises_within_lift2
  raises_within_getitem raises_within_truediv raises_within_unpack3 : raises.
#[local] Hint Extern 1 (_ ∈ _) => set_solver : raises.







(** ** Distance estimation *)

Section Rounding.
Local Open Scope R_scope.

Lemma Int_part_IZR (z : Z) : Int_part (IZR z) = z.
Proof. symmetry. apply Int_part_spec. lra. Qed.

Lemma frac_part_IZR (z : Z) : frac_part (IZR z) = 0.
Proof. unfold frac_part. rewrite Int_part_IZR. lra. Qed.

Lemma rnearest_IZR (z : Z) : rnearest (IZR z) = z.
Proof.
  unfold rnearest, rcompare. rewrite Int_part_IZR, frac_part_IZR.
  destruct (Rlt_dec 0 (1 / 2)); [done | lra].
Qed.

Lemma half_even_bounds (f : Z) (c : comparison) :
  (f <= half_even f c <= f + 1)%Z.
Proof. unfold half_even. destruct c, (Z.even f); lia. Qed.

Lemma Int_part_mono (x y : R) : x <= y → (Int_part x <= Int_part y)%Z.
Proof.
  intros Hxy.
  destruct (base_Int_part x) as [Hx _], (base_Int_part y) as [_ Hy].
  assert (IZR (Int_part x) < IZR (Int_part y + 1)) as Hlt
    by (rewrite plus_IZR; lra).
  apply lt_IZR in Hlt. lia.
Qed.

Lemma rnearest_mono (x y : R) : x <= y → (rnearest x <= rnearest y)%Z.
Proof.
  intros Hxy. pose proof (Int_part_mono x y Hxy) as Hf.
  unfold rnearest.
  destruct (decide (Int_part x = Int_part y)) as [Heq | Hne].
  - assert (frac_part x <= frac_part y) as Hfrac
      by (unfold frac_part; rewrite Heq; lra).
    rewrite Heq. unfold rcompare, half_even.
    repeat destruct (Rlt_dec _ _); destruct (Z.even (Int_part y)); lia || lra.
  - pose proof (half_even_bounds (Int_part x)
                  (rcompare (frac_part x) (1 / 2))).
    pose proof (half_even_bounds (Int_part y)
                  (rcompare (frac_part y) (1 / 2))).
    lia.
Qed.

Lemma pow10_pos (n : nat) : 0 < 10 ^ n.
Proof. apply pow_lt. lra. Qed.

Lemma rround_mono (x y : R) (n : nat) : x <= y → rround x n <= rround y n.
Proof.
  intros Hxy. unfold rround. pose proof (pow10_pos n) as Hpos.
  apply Rmult_le_compat_r; [left; by apply Rinv_0_lt_compat |].
  apply IZR_le, rnearest_mono. by apply Rmult_le_compat_r; [left |].
Qed.

Lemma rround_IZR (z : Z) (n : nat) : rround (IZR z) n = IZR z.
Proof.
  unfold rround. pose proof (pow10_pos n) as Hpos.
  replace (IZR z * 10 ^ n) with (IZR (z * 10 ^ Z.of_nat n)).
  - rewrite rnearest_IZR, mult_IZR, <- pow_IZR. field. lra.
  - by rewrite mult_IZR, <- pow_IZR.
Qed.

Lemma rround_nonneg (x : R) (n : nat) : 0 <= x → 0 <= rround x n.
Proof. intros Hx. rewrite <- (rround_IZR 0 n). by apply rround_mono. Qed.

End Rounding.

Section Distance.
Local Open Scope R_scope.

Lemma Rpower_10_pos (y : R) : 0 < Rpower 10 y.
Proof. unfold Rpower. apply exp_pos. Qed.

Lemma Rpower_10_mono (y z : R) : y <= z → Rpower 10 y <= Rpower 10 z.
Proof. intros Hyz. apply Rle_Rpower; lra. Qed.


(** [math.pow(10, y)] raises only on overflow. *)
Lemma math_pow_10 (y : R) :
  math_pow 10 y
  = if Rlt_dec float_max (Rpower 10 y) then Raise OverflowError
    else Return (Rpower 10 y).
Proof.
  unfold math_pow. destruct (Rlt_dec 0 10) as [_ | Hneg]; [| lra].
  rewrite bind_Return, Rabs_pos_eq; [done |].
  left. apply Rpower_10_pos.
Qed.

Lemma calculate_distance_nonnegative (rssi tx_power : Z)
    (environment_factor : R) :
  (0 <= rssi)%Z →
  calculate_distance_from_rssi rssi tx_power environment_factor = Return 0.
Proof.
  intros Hrssi. unfold calculate_distance_from_rssi.
  rewrite decide_True; [done | lia].
Qed.

(** Below zero and with a factor other than zero, the result is the
    rounded power, or the sentinel when the power overflows. *)
Lemma calculate_distance_negative (rssi tx_power : Z)
    (environment_factor : R) :
  (rssi < 0)%Z → environment_factor ≠ 0 →
  calculate_distance_from_rssi rssi tx_power environment_factor
  = if Rlt_dec float_max
         (Rpower 10 (path_loss_ratio rssi tx_power environment_factor))
    then Return 999
    else Return
           (rround
              (Rpower 10 (path_loss_ratio rssi tx_power environment_factor))
              2).
Proof.
  intros Hrssi Hfactor. unfold calculate_distance_from_rssi.
  rewrite decide_False by lia.
  unfold rtruediv.
  destruct (Req_dec_T (10 * environment_factor) 0) as [Hz | _]; [lra |].
  rewrite bind_Return, math_pow_10.
  fold (path_loss_ratio rssi tx_power environment_factor).
  by destruct (Rlt_dec float_max _).
Qed.

(** C1: with an environment factor of zero and a reading below zero the
    division raises [ZeroDivisionError], which the handler for
    [ValueError] and [OverflowError] lets through: the sentinel 999.0 is
    not returned. *)
Theorem calculate_distance_zero_factor_raises (rssi tx_power : Z) :
  (rssi < 0)%Z →
  calculate_distance_from_rssi rssi tx_power 0 = Raise ZeroDivisionError.
Proof.
  intros Hrssi. unfold calculate_distance_from_rssi.
  rewrite decide_False by lia.
  unfold rtruediv.
  destruct (Req_dec_T (10 * 0) 0) as [_ | Hnz]; [| lra].
  apply try_except_unhandled; [done |].
  rewrite !not_elem_of_cons. split_and!; [done .. | apply not_elem_of_nil].
Qed.

Lemma calculate_distance_zero_factor_raises_witness :
  (-60 < 0)%Z ∧
  calculate_distance_from_rssi (-60) default_tx_power 0
  = Raise ZeroDivisionError.
Proof.
  split; [lia |]. apply calculate_distance_zero_factor_raises. lia.
Defined.










End Distance.

(** ** Heat-map grid *)

Lemma foldl_snoc_fmap {A B} (f : A → B) (l : list A) (acc : list B) :
  foldl (λ acc a, acc ++ [f a]) acc l = acc ++ (f <$> l).
Proof.
  revert acc. induction l as [|a l IH]; intros acc; simpl.
  - by rewrite app_nil_r.
  - by rewrite IH, <- app_assoc.
Qed.

Lemma length_range (a b : Z) : length (range a b) = Z.to_nat (b - a).
Proof. apply length_seqZ. Qed.

Lemma lookup_range (a b : Z) (i : nat) :
  (i < Z.to_nat (b - a))%nat → range a b !! i = Some (a + Z.of_nat i)%Z.
Proof. intros Hi. apply lookup_seqZ_lt. lia. Qed.

(** *** The bounding box *)

Lemma foldl_min_least (x : Z) (l : list Z) : is_least (foldl Z.min x l) (x :: l).
Proof.
  revert x. induction l as [|y l IH]; intros x; simpl.
  - split; [set_solver |]. intros z ->%list_elem_of_singleton. lia.
  - destruct (IH (Z.min x y)) as [Hin Hle]. split.
    + apply elem_of_cons in Hin as [-> | Hin]; [| set_solver].
      destruct (Z.min_spec x y) as [[_ ->] | [_ ->]]; set_solver.
    + intros z Hz.
      pose proof (Hle (Z.min x y) ltac:(left)) as Hmin.
      apply elem_of_cons in Hz as [-> | Hz]; [lia |].
      apply elem_of_cons in Hz as [-> | Hz]; [lia |].
      apply Hle. by right.
Qed.

Lemma foldl_max_greatest (x : Z) (l : list Z) :
  is_greatest (foldl Z.max x l) (x :: l).
Proof.
  revert x. induction l as [|y l IH]; intros x; simpl.
  - split; [set_solver |]. intros z ->%list_elem_of_singleton. lia.
  - destruct (IH (Z.max x y)) as [Hin Hle]. split.
    + apply elem_of_cons in Hin as [-> | Hin]; [| set_solver].
      destruct (Z.max_spec x y) as [[_ ->] | [_ ->]]; set_solver.
    + intros z Hz.
      pose proof (Hle (Z.max x y) ltac:(left)) as Hmax.
      apply elem_of_cons in Hz as [-> | Hz]; [lia |].
      apply elem_of_cons in Hz as [-> | Hz]; [lia |].
      apply Hle. by right.
Qed.

Lemma min_least (l : list Z) :
  l ≠ [] → ∃ m, Py.min l = Return m ∧ is_least m l.
Proof.
  destruct l as [|x l]; [done |]. intros _.
  eexists. split; [done |]. apply foldl_min_least.
Qed.

Lemma max_greatest (l : list Z) :
  l ≠ [] → ∃ m, Py.max l = Return m ∧ is_greatest m l.
Proof.
  destruct l as [|x l]; [done |]. intros _.
  eexists. split; [done |]. apply foldl_max_greatest.
Qed.

(** *** The dictionary of cells: the last row at a key wins *)

Lemma lookup_record_points (data_points : list HeatMapData.t)
    (grid : gmap (Z * Z) Cell.t) (x y : Z) :
  foldl record_point grid data_points !! (x, y)
  = match last_submitted x y data_points with
    | Some p => Some (cell_of_point p)
    | None => grid !! (x, y)
    end.
Proof.
  unfold last_submitted.
  induction data_points as [|p data_points IH] using rev_ind; [done |].
  rewrite foldl_snoc, filter_app, filter_cons, filter_nil.
  unfold record_point at 1.
  destruct (decide (point_key p = (x, y))) as [Hkey | Hkey].
  - by rewrite last_snoc, Hkey, lookup_insert_eq.
  - by rewrite app_nil_r, lookup_insert_ne.
Qed.

Lemma lookup_recorded (data_points : list HeatMapData.t) (x y : Z) :
  default (unknown_cell x y) (foldl record_point ∅ data_points !! (x, y))
  = expected_cell data_points x y.
Proof.
  rewrite lookup_record_points. unfold expected_cell.
  by destruct (last_submitted x y data_points).
Qed.

(** *** The answer of the action *)

Lemma grid_of_bounds (data_points : list HeatMapData.t)
    (min_x max_x min_y max_y : Z) :
  data_points ≠ [] →
  Py.min (HeatMapData.grid_x <$> data_points) = Return min_x →
  Py.max (HeatMapData.grid_x <$> data_points) = Return max_x →
  Py.min (HeatMapData.grid_y <$> data_points) = Return min_y →
  Py.max (HeatMapData.grid_y <$> data_points) = Return max_y →
  HeatMapDataViewSet_grid data_points
  = Return (GridResponse.Make
              (dense_grid data_points min_x max_x min_y max_y)
              min_x max_x min_y max_y (length data_points)).
Proof.
  intros Hne Hmin_x Hmax_x Hmin_y Hmax_y. unfold HeatMapDataViewSet_grid.
  rewrite decide_False by done.
  rewrite Hmin_x, Hmax_x, Hmin_y, Hmax_y, !bind_Return.
  do 2 f_equal. rewrite foldl_snoc_fmap. simpl.
  apply list_fmap_ext. intros _ y _.
  rewrite foldl_snoc_fmap. simpl.
  apply list_fmap_ext. intros _ x _.
  apply (lookup_recorded data_points x y).
Qed.

Lemma dense_grid_length (data_points : list HeatMapData.t)
    (min_x max_x min_y max_y : Z) :
  length (dense_grid data_points min_x max_x min_y max_y)
  = Z.to_nat (max_y - min_y + 1).
Proof.
  unfold dense_grid. rewrite length_fmap, length_range. f_equal. lia.
Qed.

Lemma dense_grid_rows (data_points : list HeatMapData.t)
    (min_x max_x min_y max_y : Z) :
  Forall (λ row, length row = Z.to_nat (max_x - min_x + 1))
    (dense_grid data_points min_x max_x min_y max_y).
Proof.
  unfold dense_grid. apply Forall_fmap, Forall_forall. intros y _. simpl.
  rewrite length_fmap, length_range. f_equal. lia.
Qed.

Lemma dense_grid_cell (data_points : list HeatMapData.t)
    (min_x max_x min_y max_y : Z) (i j : nat) :
  (i < Z.to_nat (max_y - min_y + 1))%nat →
  (j < Z.to_nat (max_x - min_x + 1))%nat →
  cell_at (dense_grid data_points min_x max_x min_y max_y) i j
  = Some (expected_cell data_points
            (min_x + Z.of_nat j) (min_y + Z.of_nat i)).
Proof.
  intros Hi Hj. unfold cell_at, dense_grid.
  rewrite list_lookup_fmap, lookup_range by lia. simpl.
  by rewrite list_lookup_fmap, lookup_range by lia.
Qed.

(** *** What [last_submitted] finds *)

Lemma filter_none {A} (P : A → Prop) `{∀ a, Decision (P a)} (l : list A) :
  (∀ a, a ∈ l → ¬ P a) → filter P l = [].
Proof.
  intros Hnone. induction l as [|a l IH]; [done |].
  rewrite filter_cons, decide_False by (apply Hnone; left).
  apply IH. intros b Hb. apply Hnone. by right.
Qed.

Lemma last_submitted_last (before after : list HeatMapData.t)
    (p : HeatMapData.t) :
  (∀ q, q ∈ after → point_key q ≠ point_key p) →
  last_submitted (HeatMapData.grid_x p) (HeatMapData.grid_y p)
    (before ++ p :: after)
  = Some p.
Proof.
  intros Hafter. unfold last_submitted.
  rewrite filter_app, filter_cons, decide_True by done.
  rewrite (filter_none _ after) by done.
  apply last_snoc.
Qed.

Lemma last_submitted_none (data_points : list HeatMapData.t) (x y : Z) :
  (∀ q, q ∈ data_points → point_key q ≠ (x, y)) →
  last_submitted x y data_points = None.
Proof.
  intros Hnone. unfold last_submitted. by rewrite filter_none.
Qed.

Lemma last_submitted_key (data_points : list HeatMapData.t) (x y : Z)
    (p : HeatMapData.t) :
  last_submitted x y data_points = Some p → point_key p = (x, y).
Proof.
  unfold last_submitted. intros Hlast%last_Some_elem_of.
  by apply list_elem_of_filter in Hlast as [Hkey _].
Qed.

Lemma expected_cell_position (data_points : list HeatMapData.t) (x y : Z) :
  Cell.x (expected_cell data_points x y) = x
  ∧ Cell.y (expected_cell data_points x y) = y.
Proof.
  unfold expected_cell.
  destruct (last_submitted x y data_points) as [p|] eqn:Hlast; [| done].
  apply last_submitted_key in Hlast. by injection Hlast.
Qed.

(** C5: an empty sequence gives the empty grid with all bounds 0 and a
    cell count of 0; a non-empty one gives, without raising, a grid over
    the bounding box of the supplied coordinates, with
    [max_y - min_y + 1] rows of [max_x - min_x + 1] cells each, the cell of
    row [i] and column [j] standing at [(min_x + j, min_y + i)]; a supplied
    row of the table that no later row overwrites is the cell at its
    coordinates, and a position no row was supplied for holds the
    synthesized unknown cell without a signal strength. *)
Theorem grid_structure :
  HeatMapDataViewSet_grid [] = Return (GridResponse.Make [] 0 0 0 0 0) ∧
  ∀ data_points : list HeatMapData.t,
    data_points ≠ [] →
    ∃ r,
      HeatMapDataViewSet_grid data_points = Return r ∧
      let xs := HeatMapData.grid_x <$> data_points in
      let ys := HeatMapData.grid_y <$> data_points in
      let min_x := GridResponse.min_x r in
      let min_y := GridResponse.min_y r in
      let height :=
        Z.to_nat (GridResponse.max_y r - GridResponse.min_y r + 1) in
      let width :=
        Z.to_nat (GridResponse.max_x r - GridResponse.min_x r + 1) in
      let grid := GridResponse.grid r in
      (is_least min_x xs ∧ is_greatest (GridResponse.max_x r) xs ∧
       is_least min_y ys ∧ is_greatest (GridResponse.max_y r) ys) ∧
      length grid = height ∧
      Forall (λ row, length row = width) grid ∧
      (∀ i j : nat, (i < height)%nat → (j < width)%nat →
         ∃ c, cell_at grid i j = Some c
              ∧ Cell.x c = (min_x + Z.of_nat j)%Z
              ∧ Cell.y c = (min_y + Z.of_nat i)%Z) ∧
      (∀ (before after : list HeatMapData.t) (p : HeatMapData.t),
         data_points = before ++ p :: after →
         (∀ q, q ∈ after → point_key q ≠ point_key p) →
         ∃ i j : nat,
           (i < height)%nat ∧ (j < width)%nat
           ∧ (min_x + Z.of_nat j)%Z = HeatMapData.grid_x p
           ∧ (min_y + Z.of_nat i)%Z = HeatMapData.grid_y p
           ∧ cell_at grid i j = Some (cell_of_point p)) ∧
      (∀ i j : nat, (i < height)%nat → (j < width)%nat →
         (∀ q, q ∈ data_points →
               point_key q ≠ (min_x + Z.of_nat j, min_y + Z.of_nat i)%Z) →
         cell_at grid i j
         = Some (Cell.Make (min_x + Z.of_nat j) (min_y + Z.of_nat i)
                   "unknown" None)).
Proof.
  split; [done |]. intros data_points Hne.
  assert (HeatMapData.grid_x <$> data_points ≠ []) as Hxs
    by (by destruct data_points).
  assert (HeatMapData.grid_y <$> data_points ≠ []) as Hys
    by (by destruct data_points).
  destruct (min_least _ Hxs) as (min_x & Hmin_x & Hleast_x).
  destruct (max_greatest _ Hxs) as (max_x & Hmax_x & Hgreatest_x).
  destruct (min_least _ Hys) as (min_y & Hmin_y & Hleast_y).
  destruct (max_greatest _ Hys) as (max_y & Hmax_y & Hgreatest_y).
  eexists. split; [by apply grid_of_bounds |]. simpl.
  split_and!; try done.
  - apply dense_grid_length.
  - apply dense_grid_rows.
  - intros i j Hi Hj. eexists. split; [by apply dense_grid_cell |].
    apply expected_cell_position.
  - intros before after p -> Hafter.
    assert (p ∈ before ++ p :: after) as Hp by set_solver.
    pose proof (proj2 Hleast_x _ (list_elem_of_fmap_2 _ _ _ Hp)).
    pose proof (proj2 Hgreatest_x _ (list_elem_of_fmap_2 _ _ _ Hp)).
    pose proof (proj2 Hleast_y _ (list_elem_of_fmap_2 _ _ _ Hp)).
    pose proof (proj2 Hgreatest_y _ (list_elem_of_fmap_2 _ _ _ Hp)).
    exists (Z.to_nat (HeatMapData.grid_y p - min_y)),
           (Z.to_nat (HeatMapData.grid_x p - min_x)).
    split_and!; [lia .. |].
    rewrite dense_grid_cell by lia. f_equal.
    replace (min_x + _)%Z with (HeatMapData.grid_x p) by lia.
    replace (min_y + _)%Z with (HeatMapData.grid_y p) by lia.
    unfold expected_cell. by rewrite last_submitted_last.
  - intros i j Hi Hj Hnone. rewrite dense_grid_cell by done. f_equal.
    unfold expected_cell. by rewrite last_submitted_none.
Qed.

Lemma grid_structure_witness :
  let data_points :=
    [HeatMapData.Make 0 0 (-50) "clear";
     HeatMapData.Make 2 2 (-80) "obstacle";
     HeatMapData.Make 0 0 (-55) "unstable"] in
  data_points ≠ [] ∧
  ∃ r,
    HeatMapDataViewSet_grid data_points = Return r
    ∧ length (GridResponse.grid r)
      = Z.to_nat (GridResponse.max_y r - GridResponse.min_y r + 1).
Proof.
  intros data_points. split; [done |].
  destruct (proj2 grid_structure data_points) as (r & Hr & _ & Hlen & _);
    [done |].
  by exists r.
Defined.

(** * Further properties of the code *)

(** ** Distance estimation: when it raises, and the calibration point *)

Section DistanceMore.
Local Open Scope R_scope.






End DistanceMore.

(** ** Navigation guidance: range, symmetry and the zero change *)

Lemma Qc_of_Z_nonneg (z : Z) : (0 ≤ z)%Z → (0 ≤ Qc_of_Z z)%Qc.
Proof.
  intros Hz. rewrite <- Z2Qc_inj_0. exact (proj1 (Z2Qc_inj_le 0 z) Hz).
Qed.



(** The direction and the confidence of the guidance for two readings. *)
Lemma guidance_fields (current_rssi previous_rssi threshold : Z) :
  let change := (current_rssi - previous_rssi)%Z in
  ∃ d,
    get_navigation_guidance current_rssi (Some previous_rssi) threshold
    = Return d
    ∧ d !! "direction"
      = Some (Str (if decide (Z.abs change < threshold)%Z then "stable"
                   else if decide (change > 0)%Z then "closer"
                   else "farther"))
    ∧ d !! "confidence"
      = Some (Float (if decide (Z.abs change < threshold)%Z then lit 0.3
                     else min2 (lit 1.0)
                            (Qc_of_Z (Z.abs change) / lit 10.0)%Qc)).
Proof.
  intros change. unfold get_navigation_guidance. fold change.
  rewrite (truediv_nonzero _ _ lit_ten_nonzero). simpl.
  repeat case_decide; (eexists; split_and!; [reflexivity | done | done]).
Qed.


(** X4: reversing a move reverses the advice: two readings are stable in
    one order exactly when they are in the other, and going from [b] to
    [a] is closer with some confidence exactly when [a] and [b] differ and
    going from [a] to [b] is farther with the same confidence. *)
Theorem get_navigation_guidance_reversed (a b threshold : Z) :
  (returns_field (get_navigation_guidance a (Some b) threshold)
     "direction" (Str "stable")
   ↔ returns_field (get_navigation_guidance b (Some a) threshold)
       "direction" (Str "stable")) ∧
  (∀ c,
     returns_field (get_navigation_guidance a (Some b) threshold)
       "direction" (Str "closer")
     ∧ returns_field (get_navigation_guidance a (Some b) threshold)
         "confidence" (Float c)
     ↔ a ≠ b
       ∧ returns_field (get_navigation_guidance b (Some a) threshold)
           "direction" (Str "farther")
       ∧ returns_field (get_navigation_guidance b (Some a) threshold)
           "confidence" (Float c)).
Proof.
  destruct (guidance_fields a b threshold) as (d1 & Hd1 & Hdir1 & Hconf1).
  destruct (guidance_fields b a threshold) as (d2 & Hd2 & Hdir2 & Hconf2).
  unfold returns_field. rewrite Hd1, Hd2.
  replace (Z.abs (b - a)) with (Z.abs (a - b)) in * by lia.
  destruct (decide (Z.abs (a - b) < threshold)%Z) as [Hsmall | Hsmall],
           (decide (a - b > 0)%Z) as [Hab | Hab],
           (decide (b - a > 0)%Z) as [Hba | Hba];
    try lia; naive_solver lia.
Qed.

(** X5: two equal readings are stable with confidence 0.3 when the
    threshold is positive; with a threshold of zero or less they are
    reported as farther, with confidence 0.0. *)
Theorem get_navigation_guidance_no_change (rssi threshold : Z) :
  ((0 < threshold)%Z →
   returns_field (get_navigation_guidance rssi (Some rssi) threshold)
     "direction" (Str "stable")
   ∧ returns_field (get_navigation_guidance rssi (Some rssi) threshold)
       "confidence" (Float (lit 0.3))) ∧
  ((threshold ≤ 0)%Z →
   returns_field (get_navigation_guidance rssi (Some rssi) threshold)
     "direction" (Str "farther")
   ∧ returns_field (get_navigation_guidance rssi (Some rssi) threshold)
       "confidence" (Float (lit 0.0))).
Proof.
  destruct (guidance_fields rssi rssi threshold) as (d & Hd & Hdir & Hconf).
  unfold returns_field. rewrite Hd.
  replace (rssi - rssi)%Z with 0%Z in * by lia.
  split; intros Hthreshold; (split; (eexists; split; [done |])).
  - rewrite Hdir. rewrite decide_True by (simpl; lia). done.
  - rewrite Hconf. rewrite decide_True by (simpl; lia). done.
  - rewrite Hdir. rewrite !decide_False by (simpl; lia). done.
  - rewrite Hconf. rewrite decide_False by (simpl; lia).
    by do 2 f_equal.
Qed.

Lemma get_navigation_guidance_no_change_witness :
  (0 ≤ 0)%Z ∧
  returns_field (get_navigation_guidance (-60) (Some (-60)%Z) 0)
    "direction" (Str "farther")
  ∧ returns_field (get_navigation_guidance (-60) (Some (-60)%Z) 0)
      "confidence" (Float (lit 0.0)).
Proof.
  split; [lia |].
  apply (proj2 (get_navigation_guidance_no_change (-60) 0)). lia.
Defined.

(** ** Cell classification: order of the samples, constant samples *)













(** ** Trilateration: exact distances, missing keys *)

Lemma solution_exact (p1 p2 p3 : Anchor.t) (px py : Qc) :
  at_distance p1 px py → at_distance p2 px py → at_distance p3 px py →
  denom p1 p2 p3 ≠ 0%Qc →
  solution p1 p2 p3 = (px, py).
Proof.
  unfold at_distance. cbn [Qcpower]. intros H1 H2 H3 Hdenom.
  assert (coef_C p1 p2 = coef_A p1 p2 * px + coef_B p1 p2 * py)%Qc as HC.
  { unfold coef_A, coef_B, coef_C. cbn [Qcpower]. rewrite H1, H2.
    rewrite Z2Qc_inj_2. ring. }
  assert (coef_F p2 p3 = coef_D p2 p3 * px + coef_E p2 p3 * py)%Qc as HF.
  { unfold coef_D, coef_E, coef_F. cbn [Qcpower]. rewrite H2, H3.
    rewrite Z2Qc_inj_2. ring. }
  unfold solution. rewrite HC, HF. unfold denom in *.
  f_equal; field; done.
Qed.

(** X8: when the three anchors lie at their recorded distances from one
    point and are not degenerate, the estimate is that point, each
    coordinate rounded to two decimals. *)
Theorem estimate_position_from_beacons_exact (p1 p2 p3 : Anchor.t)
    (px py : Qc) :
  at_distance p1 px py → at_distance p2 px py → at_distance p3 px py →
  (lit 0.0001 ≤ Qcabs (denom p1 p2 p3))%Qc →
  estimate_position_from_beacons
    [Anchor.to_dict p1; Anchor.to_dict p2; Anchor.to_dict p3]
  = Return (Some (round px 2, round py 2)).
Proof.
  intros H1 H2 H3 Hdenom. rewrite estimate_position_three.
  rewrite decide_False by by apply Qcle_not_lt.
  rewrite (solution_exact p1 p2 p3 px py); [done .. |].
  intros Hz. rewrite Hz in Hdenom.
  by apply (Qcle_not_lt _ _ Hdenom), Qcabs_small_0.
Qed.

Lemma estimate_position_from_beacons_exact_witness :
  let p1 := Anchor.Make (lit 3) (lit 4) (lit 5) in
  let p2 := Anchor.Make (lit (-5)) (lit 12) (lit 13) in
  let p3 := Anchor.Make (lit 8) (lit 15) (lit 17) in
  at_distance p1 (lit 0) (lit 0) ∧ at_distance p2 (lit 0) (lit 0) ∧
  at_distance p3 (lit 0) (lit 0) ∧
  (lit 0.0001 ≤ Qcabs (denom p1 p2 p3))%Qc ∧
  estimate_position_from_beacons
    [Anchor.to_dict p1; Anchor.to_dict p2; Anchor.to_dict p3]
  = Return (Some (round (lit 0) 2, round (lit 0) 2)).
Proof.
  intros p1 p2 p3.
  assert (at_distance p1 (lit 0) (lit 0)) as H1
    by (apply Qc_is_canon; by vm_compute).
  assert (at_distance p2 (lit 0) (lit 0)) as H2
    by (apply Qc_is_canon; by vm_compute).
  assert (at_distance p3 (lit 0) (lit 0)) as H3
    by (apply Qc_is_canon; by vm_compute).
  assert (lit 0.0001 ≤ Qcabs (denom p1 p2 p3))%Qc as Hdenom by by vm_compute.
  split_and!; [done .. |].
  by apply estimate_position_from_beacons_exact.
Defined.









(** ** Heat-map grid: the order of the rows *)

Lemma is_least_unique (m m' : Z) (l : list Z) :
  is_least m l → is_least m' l → m = m'.
Proof.
  intros [Hin Hle] [Hin' Hle'].
  pose proof (Hle _ Hin'). pose proof (Hle' _ Hin). lia.
Qed.

Lemma is_greatest_unique (m m' : Z) (l : list Z) :
  is_greatest m l → is_greatest m' l → m = m'.
Proof.
  intros [Hin Hle] [Hin' Hle'].
  pose proof (Hle _ Hin'). pose proof (Hle' _ Hin). lia.
Qed.

Lemma min_Permutation (l l' : list Z) : l ≡ₚ l' → Py.min l = Py.min l'.
Proof.
  intros Hperm. destruct (decide (l = [])) as [-> | Hne].
  - by apply Permutation_nil_l in Hperm as ->.
  - assert (l' ≠ []) as Hne'
      by (intros ->; by apply Permutation_nil_r in Hperm).
    destruct (min_least l Hne) as (m & -> & Hm).
    destruct (min_least l' Hne') as (m' & -> & Hm').
    f_equal. apply (is_least_unique m m' l); [done |].
    destruct Hm' as [Hin Hle]. split.
    + by rewrite Hperm.
    + intros z Hz. apply Hle. by rewrite <- Hperm.
Qed.

Lemma max_Permutation (l l' : list Z) : l ≡ₚ l' → Py.max l = Py.max l'.
Proof.
  intros Hperm. destruct (decide (l = [])) as [-> | Hne].
  - by apply Permutation_nil_l in Hperm as ->.
  - assert (l' ≠ []) as Hne'
      by (intros ->; by apply Permutation_nil_r in Hperm).
    destruct (max_greatest l Hne) as (m & -> & Hm).
    destruct (max_greatest l' Hne') as (m' & -> & Hm').
    f_equal. apply (is_greatest_unique m m' l); [done |].
    destruct Hm' as [Hin Hle]. split.
    + by rewrite Hperm.
    + intros z Hz. apply Hle. by rewrite <- Hperm.
Qed.

Lemma filter_key_short (l : list HeatMapData.t) (k : Z * Z) :
  NoDup (point_key <$> l) →
  (length (filter (λ p, point_key p = k) l) ≤ 1)%nat.
Proof.
  induction l as [| p l IH]; [simpl; lia |].
  rewrite fmap_cons, NoDup_cons. intros [Hp Hl].
  rewrite filter_cons. case_decide as Hk; [| by apply IH].
  rewrite filter_none; [simpl; lia |].
  intros q Hq Hqk. apply Hp. rewrite Hk, <- Hqk.
  by apply list_elem_of_fmap_2.
Qed.

Lemma last_submitted_Permutation (l l' : list HeatMapData.t) (x y : Z) :
  l ≡ₚ l' → NoDup (point_key <$> l) →
  last_submitted x y l = last_submitted x y l'.
Proof.
  intros Hperm Hnodup. unfold last_submitted.
  pose proof (filter_key_short l (x, y) Hnodup) as Hshort.
  assert (filter (λ p, point_key p = (x, y)) l
          ≡ₚ filter (λ p, point_key p = (x, y)) l') as Hfilter
    by by rewrite Hperm.
  destruct (filter (λ p, point_key p = (x, y)) l) as [| p [| p' f]].
  - by apply Permutation_nil_l in Hfilter as ->.
  - by apply Permutation_singleton_l in Hfilter as ->.
  - simpl in Hshort. lia.
Qed.

(** X10: when no two rows share a position, as the unique constraint of
    the table guarantees, the answer of the grid action does not depend on
    the order in which the rows are read. *)
Theorem grid_Permutation (data_points data_points' : list HeatMapData.t) :
  data_points ≡ₚ data_points' →
  NoDup (point_key <$> data_points) →
  HeatMapDataViewSet_grid data_points = HeatMapDataViewSet_grid data_points'.
Proof.
  intros Hperm Hnodup.
  destruct (decide (data_points = [])) as [-> | Hne].
  { by apply Permutation_nil_l in Hperm as ->. }
  assert (data_points' ≠ []) as Hne'
    by (intros ->; by apply Permutation_nil_r in Hperm).
  assert (HeatMapData.grid_x <$> data_points ≠ []) as Hxs
    by (by destruct data_points).
  assert (HeatMapData.grid_y <$> data_points ≠ []) as Hys
    by (by destruct data_points).
  destruct (min_least _ Hxs) as (min_x & Hmin_x & _).
  destruct (max_greatest _ Hxs) as (max_x & Hmax_x & _).
  destruct (min_least _ Hys) as (min_y & Hmin_y & _).
  destruct (max_greatest _ Hys) as (max_y & Hmax_y & _).
  rewrite (grid_of_bounds data_points min_x max_x min_y max_y) by done.
  rewrite (grid_of_bounds data_points' min_x max_x min_y max_y); try done.
  - rewrite (Permutation_length Hperm). do 2 f_equal.
    unfold dense_grid. apply list_fmap_ext. intros _ y _.
    apply list_fmap_ext. intros _ x _. unfold expected_cell.
    by rewrite (last_submitted_Permutation _ _ x y Hperm Hnodup).
  - rewrite <- Hmin_x. symmetry. apply min_Permutation. by rewrite Hperm.
  - rewrite <- Hmax_x. symmetry. apply max_Permutation. by rewrite Hperm.
  - rewrite <- Hmin_y. symmetry. apply min_Permutation. by rewrite Hperm.
  - rewrite <- Hmax_y. symmetry. apply max_Permutation. by rewrite Hperm.
Qed.

Lemma grid_Permutation_witness :
  let p := HeatMapData.Make 0 0 (-50) "clear" in
  let q := HeatMapData.Make 2 1 (-80) "obstacle" in
  [p; q] ≡ₚ [q; p] ∧ NoDup (point_key <$> [p; q]) ∧
  HeatMapDataViewSet_grid [p; q] = HeatMapDataViewSet_grid [q; p].
Proof.
  intros p q.
  assert ([p; q] ≡ₚ [q; p]) as Hperm by apply perm_swap.
  assert (NoDup (point_key <$> [p; q])) as Hnodup.
  { apply NoDup_cons. split; [| apply NoDup_singleton].
    by intros ?%list_elem_of_singleton. }
  split_and!; [done | done |]. by apply grid_Permutation.
Defined.

(** ** The calculation endpoints *)

Section Endpoints.
Local Open Scope R_scope.

Lemma calculate_distance_nonzero_factor (rssi tx_power : Z)
    (environment_factor : R) :
  environment_factor ≠ 0 →
  ∃ d,
    calculate_distance_from_rssi rssi tx_power environment_factor = Return d
    ∧ 0 <= d.
Proof.
  intros Hfactor. destruct (Z_lt_le_dec rssi 0) as [Hneg | Hpos].
  - rewrite calculate_distance_negative by done.
    destruct (Rlt_dec float_max _); (eexists; split; [done |]); [lra |].
    apply rround_nonneg. left. apply Rpower_10_pos.
  - rewrite calculate_distance_nonnegative by done.
    eexists. split; [done | lra].
Qed.




End Endpoints.

(** ** The quality description against the estimated distance *)

Section QualityDistance.
Local Open Scope R_scope.

Lemma Rpower_root_20 (x : R) : 0 < x → Rpower (x ^ 20) (1 / 20) = x.
Proof.
  intros Hx. rewrite <- (Rpower_pow 20 x Hx), Rpower_mult.
  replace (INR 20 * (1 / 20)) with 1 by (simpl; lra).
  by apply Rpower_1.
Qed.

Lemma Rpower_10_twentieths (n : nat) :
  Rpower 10 (INR n / 20) = Rpower (10 ^ n) (1 / 20).
Proof.
  rewrite <- (Rpower_pow n 10) by lra. rewrite Rpower_mult.
  f_equal. lra.
Qed.

Lemma pow10_twentieth_le_2 : Rpower 10 (1 / 20) <= 2.
Proof.
  rewrite <- (Rpower_root_20 2) by lra.
  apply Rle_Rpower_l; lra.
Qed.

Lemma pow10_nine_twentieths_ge_2 : 2 <= Rpower 10 (9 / 20).
Proof.
  replace (9 / 20) with (INR 9 / 20) by (simpl; lra).
  rewrite Rpower_10_twentieths, <- (Rpower_root_20 2) at 1 by lra.
  apply Rle_Rpower_l; lra.
Qed.

Lemma rround_hundredths (k : Z) : rround (IZR k / 100) 2 = IZR k / 100.
Proof.
  unfold rround.
  replace (IZR k / 100 * 10 ^ 2) with (IZR k) by (simpl; lra).
  rewrite rnearest_IZR. simpl. lra.
Qed.

(** The default-calibration distance of a reading below zero is bounded
    by the rounding of any bound on its power that is within range. *)
Lemma default_distance_le (rssi : Z) (bound : R) :
  (rssi < 0)%Z →
  Rpower 10 (path_loss_ratio rssi default_tx_power
               default_environment_factor) <= bound →
  bound <= float_max →
  ∃ d,
    calculate_distance_from_rssi rssi default_tx_power
      default_environment_factor = Return d
    ∧ d <= rround bound 2.
Proof.
  intros Hrssi Hbound Hrange.
  rewrite calculate_distance_negative
    by (done || unfold default_environment_factor; lra).
  destruct (Rlt_dec float_max _) as [Hover | _]; [lra |].
  eexists. split; [done |]. by apply rround_mono.
Qed.

Lemma default_ratio_le (rssi : Z) (n : Z) :
  (-59 - n <= rssi)%Z →
  path_loss_ratio rssi default_tx_power default_environment_factor
  <= IZR n / 20.
Proof.
  intros Hrssi. unfold path_loss_ratio, default_tx_power,
    default_environment_factor.
  replace (10 * 2) with 20 by lra.
  apply Rmult_le_compat_r; [lra |]. apply IZR_le. lia.
Qed.

Lemma twenty_in_range : 20 <= float_max.
Proof. unfold float_max. apply IZR_le. by vm_compute. Qed.

Lemma pow10_very_close : Rpower 10 (IZR (-9) / 20) <= 1 / 2.
Proof.
  replace (IZR (-9) / 20) with (- (9 / 20)) by lra.
  rewrite Rpower_Ropp. pose proof pow10_nine_twentieths_ge_2 as Hge.
  apply Rle_trans with (/ 2); [| lra].
  apply Rinv_le_contravar; lra.
Qed.

Lemma pow10_within_5 : Rpower 10 (IZR 1 / 20) <= 5.
Proof. pose proof pow10_twentieth_le_2. lra. Qed.

Lemma pow10_within_10 : Rpower 10 (IZR 11 / 20) <= 10.
Proof.
  rewrite <- (Rpower_1 10) at 2 by lra. apply Rpower_10_mono. lra.
Qed.

Lemma pow10_within_20 : Rpower 10 (IZR 21 / 20) <= 20.
Proof.
  replace (IZR 21 / 20) with (1 + 1 / 20) by lra.
  rewrite Rpower_plus, Rpower_1 by lra.
  pose proof pow10_twentieth_le_2. lra.
Qed.

(** X13: with the default calibration the estimated distance respects the
    description of the signal quality: at most 0.5 m when the reading is
    described as very close, at most 5 m for "Within 5m", 10 m for
    "Within 10m" and 20 m for "Within 20m". *)
Theorem quality_description_bounds_distance (rssi : Z) :
  ∃ d,
    calculate_distance_from_rssi rssi default_tx_power
      default_environment_factor = Return d
    ∧ ((get_signal_quality rssi).2 = "Excellent - Very close" → d <= 1 / 2)
    ∧ ((get_signal_quality rssi).2 = "Good - Within 5m" → d <= 5)
    ∧ ((get_signal_quality rssi).2 = "Fair - Within 10m" → d <= 10)
    ∧ ((get_signal_quality rssi).2 = "Weak - Within 20m" → d <= 20).
Proof.
  pose proof twenty_in_range as H20.
  destruct (calculate_distance_nonzero_factor rssi default_tx_power
              default_environment_factor) as (d & Hd & Hnonneg).
  { unfold default_environment_factor. lra. }
  exists d. split; [done |].
  assert (∀ (n : Z) (bound : R),
            (-59 - n <= rssi)%Z → Rpower 10 (IZR n / 20) <= bound →
            bound <= float_max → 0 <= rround bound 2 →
            d <= rround bound 2) as Hle.
  { intros n bound Hn Hbound Hrange Hzero.
    destruct (Z_lt_le_dec rssi 0) as [Hneg | Hpos].
    - destruct (default_distance_le rssi bound) as (d' & Hd' & Hle');
        [done | | done |].
      + etrans; [apply Rpower_10_mono, (default_ratio_le rssi n Hn) | done].
      + rewrite Hd in Hd'. by injection Hd' as ->.
    - rewrite calculate_distance_nonnegative in Hd by done.
      by injection Hd as <-. }
  unfold get_signal_quality.
  repeat case_decide; simpl; split_and!; intros Hdesc; try discriminate.
  - replace (1 / 2) with (IZR 50 / 100) by lra.
    rewrite <- rround_hundredths.
    apply (Hle (-9)%Z); [lia | | lra |].
    + replace (IZR 50 / 100) with (1 / 2) by lra. apply pow10_very_close.
    + rewrite rround_hundredths. lra.
  - rewrite <- (rround_IZR 5 2).
    apply (Hle 1%Z); [lia | apply pow10_within_5 | lra |].
    rewrite rround_IZR. lra.
  - rewrite <- (rround_IZR 10 2).
    apply (Hle 11%Z); [lia | apply pow10_within_10 | lra |].
    rewrite rround_IZR. lra.
  - rewrite <- (rround_IZR 20 2).
    apply (Hle 21%Z); [lia | apply pow10_within_20 | lra |].
    rewrite rround_IZR. lra.
Qed.

End QualityDistance.

(** ** Formatting a distance *)

Section FormatDistance.
Local Open Scope R_scope.





End FormatDistance.

(** ** Group codes *)

Lemma floor_range (q : Qc) (n : Z) :
  (0 ≤ q)%Qc → (q < Qc_of_Z n)%Qc → (0 ≤ floor q < n)%Z.
Proof.
  unfold floor, Qcle, Qclt. simpl. intros Hlo Hhi. split.
  - rewrite <- (Qfloor_Z 0). by apply Qfloor_resp_le.
  - rewrite Zlt_Qlt. eapply Qle_lt_trans; [apply Qfloor_le | done].
Qed.

Lemma list_getitem_in_range {A} (l : list A) (i : Z) :
  (0 ≤ i < Z.of_nat (length l))%Z → ∃ a, list_getitem l i = Some a ∧ a ∈ l.
Proof.
  intros Hi. unfold list_getitem. rewrite decide_True by lia.
  destruct (lookup_lt_is_Some_2 l (Z.to_nat i)) as [a Ha]; [lia |].
  exists a. split; [done |]. by eapply list_elem_of_lookup_2.
Qed.

Lemma random_choices_elements {A} (population : list A) (k : Z)
    (random : nat → Qc) :
  population ≠ [] →
  (∀ i, (0 ≤ random i)%Qc ∧ (random i < 1)%Qc) →
  ∃ l,
    random_choices population k random = Some l
    ∧ length l = Z.to_nat k
    ∧ ∀ a, a ∈ l → a ∈ population.
Proof.
  intros Hne Hrandom. unfold random_choices, float_of_int.
  set (n := Z.of_nat (length population)).
  assert (0 < n)%Z as Hn by (destruct population; [done | simpl in n; lia]).
  assert (∀ i : nat,
            ∃ a, list_getitem population (floor (random i * Qc_of_Z n))
                 = Some a ∧ a ∈ population) as Hpick.
  { intros i. apply list_getitem_in_range, floor_range.
    - apply Qcmult_nonneg_nonneg; [apply Hrandom |].
      apply Qc_of_Z_nonneg. lia.
    - apply Qclt_le_trans with (1 * Qc_of_Z n)%Qc;
        [| by rewrite Qcmult_1_l].
      apply Qcmult_lt_mono_pos_r; [| apply Hrandom].
      rewrite <- Z2Qc_inj_0. exact (proj1 (Z2Qc_inj_lt 0 n) Hn). }
  destruct (mapM_is_Some_2
              (λ i, list_getitem population (floor (random i * Qc_of_Z n)))
              (seq 0 (Z.to_nat k))) as [l Hl].
  { apply Forall_forall. intros i _. destruct (Hpick i) as (a & Ha & _).
    exists a. exact Ha. }
  exists l. split; [done |].
  apply mapM_Some_1 in Hl. split.
  - by rewrite <- (Forall2_length _ _ _ Hl), length_seq.
  - intros a Ha. apply list_elem_of_lookup_1 in Ha as [j Hj].
    destruct (Forall2_lookup_r _ _ _ _ _ Hl Hj) as (i & _ & Hi).
    destruct (Hpick i) as (a' & Ha' & Hin). congruence.
Qed.

Lemma length_string_of_list_ascii (l : list Ascii.ascii) :
  String.length (String.string_of_list_ascii l) = length l.
Proof. induction l as [| a l IH]; simpl; [done | by rewrite IH]. Qed.

(** X15: whatever numbers in [0, 1) the random source yields, a group code
    has exactly the requested number of characters (none for a count of
    zero or less), and every one of them is an upper-case letter or a
    digit other than O, 0, I and 1. *)
Theorem generate_group_code_alphabet (n : Z) (random : nat → Qc) :
  (∀ i, (0 ≤ random i)%Qc ∧ (random i < 1)%Qc) →
  ∃ code,
    generate_group_code n random = Some code
    ∧ String.length code = Z.to_nat n
    ∧ ∀ c, c ∈ String.list_ascii_of_string code →
           c ∈ String.list_ascii_of_string
                 "ABCDEFGHJKLMNPQRSTUVWXYZ23456789".
Proof.
  intros Hrandom. unfold generate_group_code.
  destruct (random_choices_elements
              (String.list_ascii_of_string
                 "ABCDEFGHJKLMNPQRSTUVWXYZ23456789") n random)
    as (l & Hl & Hlen & Hin); [done | done |].
  exists (String.string_of_list_ascii l). split_and!.
  - change (remove_char _ _) with "ABCDEFGHJKLMNPQRSTUVWXYZ23456789".
    by rewrite Hl.
  - by rewrite length_string_of_list_ascii.
  - intros c. rewrite String.list_ascii_of_string_of_list_ascii. apply Hin.
Qed.

Lemma generate_group_code_alphabet_witness :
  (∀ i : nat, (0 ≤ lit 0.5)%Qc ∧ (lit 0.5 < 1)%Qc) ∧
  ∃ code,
    generate_group_code 6 (λ _, lit 0.5) = Some code
    ∧ String.length code = Z.to_nat 6
    ∧ ∀ c, c ∈ String.list_ascii_of_string code →
           c ∈ String.list_ascii_of_string
                 "ABCDEFGHJKLMNPQRSTUVWXYZ23456789".
Proof.
  assert (∀ i : nat, (0 ≤ lit 0.5)%Qc ∧ (lit 0.5 < 1)%Qc) as Hrandom
    by (intros _; split; by vm_compute).
  split; [done |]. by apply (generate_group_code_alphabet 6 (λ _, lit 0.5)).
Defined.

(** ** Which beacons the [active] action shows *)

Lemma active_queryset (mode group_id : option string)
    (beacons : list SOSBeacon.t) (b : SOSBeacon.t) :
  b ∈ SOSBeaconViewSet_active mode group_id beacons →
  b ∈ filter (λ b, SOSBeacon.status b = "active") beacons.
Proof.
  unfold SOSBeaconViewSet_active.
  repeat case_decide; try done; by intros [_ ?]%list_elem_of_filter.
Qed.

(** X16: every beacon the action shows is an active row of the table; in
    public mode, also when no mode is given, it is a public beacon; in
    professional mode a public or professional one; in private mode with a
    group id a private beacon of that group. *)
Theorem SOSBeaconViewSet_active_visibility (mode group_id : option string)
    (beacons : list SOSBeacon.t) (b : SOSBeacon.t) :
  b ∈ SOSBeaconViewSet_active mode group_id beacons →
  b ∈ beacons ∧ SOSBeacon.status b = "active" ∧
  (default "public" mode = "public" → SOSBeacon.mode b = "public") ∧
  (default "public" mode = "professional" →
   SOSBeacon.mode b = "public" ∨ SOSBeacon.mode b = "professional") ∧
  (default "public" mode = "private" → truthy group_id →
   SOSBeacon.mode b = "private" ∧ SOSBeacon.private_group_id b = group_id).
Proof.
  intros Hb. pose proof (active_queryset _ _ _ _ Hb) as Hactive.
  apply list_elem_of_filter in Hactive as [Hstatus Hin].
  split_and!; [done | done | | |]; unfold SOSBeaconViewSet_active in Hb.
  - intros Hmode. rewrite decide_True in Hb by done.
    by apply list_elem_of_filter in Hb as [? _].
  - intros Hmode. rewrite decide_False, decide_True in Hb by congruence.
    apply list_elem_of_filter in Hb as [Hin' _].
    by repeat (apply elem_of_cons in Hin' as [? | Hin']; [tauto |]);
      apply elem_of_nil in Hin'.
  - intros Hmode Hgroup.
    rewrite decide_False, decide_False, decide_True in Hb
      by (congruence || done).
    by apply list_elem_of_filter in Hb as [? _].
Qed.

Lemma SOSBeaconViewSet_active_visibility_witness :
  let b := SOSBeacon.Make "d1" "public" "active" None in
  let beacons := [SOSBeacon.Make "d0" "private" "active" (Some "g"); b] in
  b ∈ SOSBeaconViewSet_active None None beacons ∧
  SOSBeacon.status b = "active" ∧ SOSBeacon.mode b = "public".
Proof.
  intros b beacons.
  assert (b ∈ SOSBeaconViewSet_active None None beacons) as Hb
    by (vm_compute; left).
  destruct (SOSBeaconViewSet_active_visibility None None beacons b Hb)
    as (_ & Hstatus & Hmode & _).
  split_and!; [done | done | by apply Hmode].
Defined.

(** X17: when the mode is neither public nor professional, and is not
    private with a non-empty group id, no mode filter applies: the action
    shows every active beacon of the table, the private ones of every
    group included. *)
Theorem SOSBeaconViewSet_active_unfiltered (mode group_id : option string)
    (beacons : list SOSBeacon.t) :
  default "public" mode ≠ "public" →
  default "public" mode ≠ "professional" →
  ¬ (default "public" mode = "private" ∧ truthy group_id) →
  ∀ b, b ∈ SOSBeaconViewSet_active mode group_id beacons
       ↔ b ∈ beacons ∧ SOSBeacon.status b = "active".
Proof.
  intros Hpublic Hprofessional Hprivate b. unfold SOSBeaconViewSet_active.
  rewrite !decide_False by done.
  rewrite list_elem_of_filter. tauto.
Qed.

Lemma SOSBeaconViewSet_active_unfiltered_witness :
  let b := SOSBeacon.Make "d0" "private" "active" (Some "g") in
  default "public" (Some "private") ≠ "public" ∧
  default "public" (Some "private") ≠ "professional" ∧
  ¬ (default "public" (Some "private") = "private" ∧ truthy None) ∧
  b ∈ SOSBeaconViewSet_active (Some "private") None [b].
Proof.
  intros b. split_and!; [done | done | by intros [_ ?] |].
  apply (SOSBeaconViewSet_active_unfiltered (Some "private") None [b]);
    [done | done | by intros [_ ?] |].
  split; [left | done].
Defined.

(** ** Creating detections in a batch *)

Lemma batch_create_loop {D E} (validate : D → option E) (detections : list D)
    (created : list D) (errors : list (D * E)) :
  foldl
    (λ '(created, errors) detection_data,
       match validate detection_data with
       | None => (created ++ [detection_data], errors)
       | Some e => (created, errors ++ [(detection_data, e)])
       end)
    (created, errors) detections
  = (created ++ filter (λ d, validate d = None) detections,
     errors ++ omap (λ d, (d,.) <$> validate d) detections).
Proof.
  revert created errors.
  induction detections as [| d detections IH]; intros created errors.
  - by rewrite !app_nil_r.
  - cbn [foldl]. rewrite filter_cons. cbn [omap list_omap]. cbn beta.
    destruct (validate d) as [e |] eqn:Hd; rewrite IH; simpl.
    + by rewrite <- app_assoc.
    + by rewrite <- app_assoc.
Qed.

(** X18: for a batch that is not empty, the number of created detections
    and the number of reported errors add up to the number of submitted
    detections; the errors are the rejected detections in the order of
    submission; and the status is 201 as soon as one detection is
    accepted, 400 when none is. *)
Theorem batch_create_accounting {D E} (validate : D → option E)
    (detections : list D) :
  detections ≠ [] →
  ∃ status created errors,
    BeaconDetectionViewSet_batch_create validate detections
    = BatchCreateResponse.Result status created errors
    ∧ (created + length errors)%nat = length detections
    ∧ errors = omap (λ d, (d,.) <$> validate d) detections
    ∧ (status = 201%Z ↔ ∃ d, d ∈ detections ∧ validate d = None)
    ∧ (status = 400%Z ↔ ∀ d, d ∈ detections → validate d ≠ None).
Proof.
  intros Hne. unfold BeaconDetectionViewSet_batch_create.
  rewrite decide_False by done. rewrite batch_create_loop. simpl.
  do 3 eexists. split; [done |].
  assert (filter (λ d, validate d = None) detections = []
          ↔ ∀ d, d ∈ detections → validate d ≠ None) as Hnone.
  { split.
    - intros Hnil d Hd Hvalid.
      by eapply (filter_nil_not_elem_of _ _ d Hnil).
    - intros Hall. by apply filter_none. }
  split_and!.
  - clear. induction detections as [| d detections IH]; [done |].
    rewrite filter_cons. cbn [omap list_omap]. cbn beta.
    destruct (validate d) as [e |]; simpl in *; lia.
  - done.
  - case_decide as Hcreated.
    + split; [done |]. intros (d & Hd & Hvalid).
      by destruct (proj1 Hnone Hcreated d Hd).
    + split; [intros _ | done].
      destruct (filter (λ d, validate d = None) detections) as [| d f]
        eqn:Hf; [done |].
      exists d.
      assert (d ∈ filter (λ d, validate d = None) detections) as Hd
        by (rewrite Hf; left).
      apply list_elem_of_filter in Hd. tauto.
  - case_decide as Hcreated.
    + split; [intros _ | done]. by apply Hnone.
    + split; [done |]. intros Hall. by destruct Hcreated; apply Hnone.
Qed.

Lemma batch_create_accounting_witness :
  let validate := λ z : Z, if decide (z < 0)%Z then None else Some "rssi" in
  [-50; 3; -60]%Z ≠ [] ∧
  ∃ status created errors,
    BeaconDetectionViewSet_batch_create validate [-50; 3; -60]%Z
    = BatchCreateResponse.Result status created errors
    ∧ (created + length errors)%nat = 3%nat.
Proof.
  intros validate. split; [done |].
  destruct (batch_create_accounting validate [-50; 3; -60]%Z)
    as (status & created & errors & Hr & Hsum & _); [done |].
  by exists status, created, errors.
Defined.

(** ** Updating the heat map in a batch, and reading the grid back *)

Lemma batch_update_loop (session : string) (cells : list CellUpdate.t)
    (updated : nat) (table : gmap (string * (Z * Z)) HeatMapRow.t) :
  foldl
    (λ '(updated, table) cell,
       (S updated,
        update_or_create table session
          (default 0%Z (CellUpdate.x cell))
          (default 0%Z (CellUpdate.y cell))
          (HeatMapRow.Make
             (default 0%Z (CellUpdate.signal_strength cell))
             (default "unknown" (CellUpdate.status cell))
             (CellUpdate.latitude cell)
             (CellUpdate.longitude cell))))
    (updated, table) cells
  = ((updated + length cells)%nat, foldl (store_cell session) table cells).
Proof.
  revert updated table.
  induction cells as [| cell cells IH]; intros updated table; simpl.
  - f_equal. lia.
  - rewrite IH. f_equal. lia.
Qed.

Lemma lookup_store_cells (session : string) (cells : list CellUpdate.t)
    (table : gmap (string * (Z * Z)) HeatMapRow.t) (s : string)
    (k : Z * Z) :
  foldl (store_cell session) table cells !! (s, k)
  = if decide (s = session) then
      match last (filter (λ c, cell_key c = k) cells) with
      | Some c => Some (cell_row c)
      | None => table !! (s, k)
      end
    else table !! (s, k).
Proof.
  induction cells as [| cell cells IH] using rev_ind.
  - simpl. by case_decide.
  - rewrite foldl_snoc, filter_app, filter_cons, filter_nil.
    unfold store_cell at 1.
    destruct (decide (cell_key cell = k)) as [Hk | Hk].
    + rewrite last_snoc.
      destruct (decide (s = session)) as [Hs | Hs].
      * by rewrite Hs, Hk, lookup_insert_eq.
      * by rewrite lookup_insert_ne by congruence.
    + rewrite app_nil_r, lookup_insert_ne by congruence. apply IH.
Qed.

Lemma batch_update_accepted (sessions : gset string) (session : string)
    (cells : list CellUpdate.t)
    (table : gmap (string * (Z * Z)) HeatMapRow.t) :
  session ≠ "" → session ∈ sessions → cells ≠ [] →
  HeatMapDataViewSet_batch_update sessions (Some session) cells table
  = (BatchUpdateResponse.Updated (length cells) session,
     foldl (store_cell session) table cells).
Proof.
  intros Hid Hsession Hcells. unfold HeatMapDataViewSet_batch_update.
  rewrite decide_False by (simpl; tauto). simpl.
  rewrite decide_True by done. by rewrite batch_update_loop.
Qed.

(** X19: an accepted batch reports as many updates as it has cells, also
    when cells repeat a position; afterwards each position of the session
    holds the last cell of the batch sent for it, with 0 for a missing
    coordinate or signal strength and "unknown" for a missing status;
    positions the batch does not name, and all other sessions, keep their
    rows. *)
Theorem batch_update_stores (sessions : gset string) (session : string)
    (cells : list CellUpdate.t)
    (table : gmap (string * (Z * Z)) HeatMapRow.t) :
  session ≠ "" → session ∈ sessions → cells ≠ [] →
  ∃ table',
    HeatMapDataViewSet_batch_update sessions (Some session) cells table
    = (BatchUpdateResponse.Updated (length cells) session, table')
    ∧ (∀ k,
         table' !! (session, k)
         = match last (filter (λ c, cell_key c = k) cells) with
           | Some c => Some (cell_row c)
           | None => table !! (session, k)
           end)
    ∧ (∀ s k, s ≠ session → table' !! (s, k) = table !! (s, k)).
Proof.
  intros Hid Hsession Hcells. eexists.
  split; [by apply batch_update_accepted |]. split.
  - intros k. by rewrite lookup_store_cells, decide_True.
  - intros s k Hs. by rewrite lookup_store_cells, decide_False.
Qed.

Lemma batch_update_stores_witness :
  let cells :=
    [CellUpdate.Make (Some 1%Z) None (Some (-70)%Z) None None None;
     CellUpdate.Make (Some 1%Z) (Some 0%Z) None (Some "clear") None None] in
  "s1" ≠ "" ∧ "s1" ∈ ({["s1"]} : gset string) ∧ cells ≠ [] ∧
  ∃ table',
    HeatMapDataViewSet_batch_update {["s1"]} (Some "s1") cells ∅
    = (BatchUpdateResponse.Updated 2 "s1", table')
    ∧ table' !! ("s1", (1, 0)%Z)
      = Some (HeatMapRow.Make 0 "clear" None None).
Proof.
  intros cells.
  assert ("s1" ∈ ({["s1"]} : gset string)) as Hin by set_solver.
  split_and!; [done | done | done |].
  destruct (batch_update_stores {["s1"]} "s1" cells ∅)
    as (table' & Hr & Hlookup & _); [done | done | done |].
  exists table'. split; [done |]. by rewrite Hlookup.
Defined.

(** *** The rows of a session, as the grid action reads them *)

Lemma elem_of_session_points (table : gmap (string * (Z * Z)) HeatMapRow.t)
    (session : string) (p : HeatMapData.t) :
  p ∈ session_points table session
  ↔ ∃ row, table !! (session, point_key p) = Some row
           ∧ p = point_of_row (point_key p) row.
Proof.
  unfold session_points. rewrite list_elem_of_omap. split.
  - intros ([[s [x y]] row] & Hentry & Hp).
    apply elem_of_map_to_list in Hentry. simpl in Hp.
    case_decide as Hs; [| done]. injection Hp as <-. subst s.
    exists row. by split.
  - intros (row & Hrow & Hp). destruct p as [x y strength status].
    exists ((session, (x, y)), row). split.
    + by apply elem_of_map_to_list.
    + simpl. rewrite decide_True by done. by rewrite Hp.
Qed.

Lemma NoDup_entry_points (session : string)
    (entries : list (string * (Z * Z) * HeatMapRow.t)) :
  NoDup (entries.*1) →
  NoDup
    (point_key
       <$> omap
             (λ entry : string * (Z * Z) * HeatMapRow.t,
                if decide (entry.1.1 = session) then
                  Some (HeatMapData.Make entry.1.2.1 entry.1.2.2
                          (HeatMapRow.signal_strength entry.2)
                          (HeatMapRow.cell_status entry.2))
                else None)
             entries).
Proof.
  induction entries as [| [[s [x y]] row] entries IH]; [constructor |].
  rewrite fmap_cons, NoDup_cons. intros [Hfresh Hnodup].
  cbn [omap list_omap]. cbn beta. simpl decide.
  case_decide as Hs; [| by apply IH]. subst s.
  rewrite fmap_cons. apply NoDup_cons. split; [| by apply IH].
  intros Hin. apply Hfresh.
  apply list_elem_of_fmap in Hin as (q & Hkey & Hq).
  apply list_elem_of_omap in Hq as ([[s' [x' y']] row'] & Hentry & Hq).
  simpl in Hq. case_decide as Hs'; [| done]. injection Hq as <-.
  simpl in Hkey. unfold point_key in Hkey. simpl in Hkey.
  injection Hkey as -> ->. subst s'.
  apply list_elem_of_fmap. by exists (session, (x', y'), row').
Qed.

Lemma NoDup_session_points (table : gmap (string * (Z * Z)) HeatMapRow.t)
    (session : string) :
  NoDup (point_key <$> session_points table session).
Proof. apply NoDup_entry_points, NoDup_fst_map_to_list. Qed.

Lemma last_submitted_lookup (table : gmap (string * (Z * Z)) HeatMapRow.t)
    (session : string) (data_points : list HeatMapData.t) (x y : Z) :
  data_points ≡ₚ session_points table session →
  last_submitted x y data_points
  = point_of_row (x, y) <$> table !! (session, (x, y)).
Proof.
  intros Hperm.
  assert (NoDup (point_key <$> data_points)) as Hnodup
    by (rewrite Hperm; apply NoDup_session_points).
  unfold last_submitted.
  destruct (table !! (session, (x, y))) as [row |] eqn:Hrow; simpl.
  - assert (point_of_row (x, y) row
            ∈ filter (λ p, point_key p = (x, y)) data_points) as Hin.
    { apply list_elem_of_filter. split; [done |].
      rewrite Hperm. apply elem_of_session_points. by exists row. }
    pose proof (filter_key_short data_points (x, y) Hnodup) as Hshort.
    destruct (filter (λ p, point_key p = (x, y)) data_points)
      as [| p [| p' f]]; simpl in Hshort; [| | lia].
    + by apply elem_of_nil in Hin.
    + by apply list_elem_of_singleton in Hin as ->.
  - rewrite filter_none; [done |].
    intros p Hp Hkey. rewrite Hperm in Hp.
    apply elem_of_session_points in Hp as (row & Hlookup & _).
    rewrite Hkey in Hlookup. congruence.
Qed.

Lemma last_submitted_cells (cells : list CellUpdate.t) (x y : Z) :
  last_submitted x y (point_of_cell <$> cells)
  = point_of_cell <$> last (filter (λ c, cell_key c = (x, y)) cells).
Proof.
  unfold last_submitted. rewrite <- fmap_last. f_equal.
  induction cells as [| c cells IH]; [done |].
  rewrite fmap_cons, !filter_cons.
  change (point_key (point_of_cell c)) with (cell_key c).
  case_decide; [rewrite fmap_cons |]; by rewrite IH.
Qed.

Lemma last_submitted_after (table : gmap (string * (Z * Z)) HeatMapRow.t)
    (session : string) (cells : list CellUpdate.t)
    (old new : list HeatMapData.t) (x y : Z) :
  old ≡ₚ session_points table session →
  new ≡ₚ session_points (foldl (store_cell session) table cells) session →
  last_submitted x y new
  = last_submitted x y (old ++ (point_of_cell <$> cells)).
Proof.
  intros Hold Hnew.
  rewrite (last_submitted_lookup _ session new x y Hnew).
  rewrite lookup_store_cells, decide_True by done.
  unfold last_submitted at 1. rewrite filter_app, last_app.
  fold (last_submitted x y (point_of_cell <$> cells)).
  fold (last_submitted x y old).
  rewrite last_submitted_cells, (last_submitted_lookup _ session old x y Hold).
  destruct (last (filter (λ c, cell_key c = (x, y)) cells)) as [c |] eqn:Hc;
    [| done].
  simpl. apply last_Some_elem_of, list_elem_of_filter in Hc as [Hkey _].
  unfold point_of_cell. by rewrite Hkey.
Qed.

Lemma last_submitted_is_Some (l : list HeatMapData.t) (x y : Z) :
  is_Some (last_submitted x y l) ↔ (x, y) ∈ point_key <$> l.
Proof.
  unfold last_submitted. rewrite last_is_Some, list_elem_of_fmap. split.
  - intros Hne.
    destruct (filter (λ p, point_key p = (x, y)) l) as [| p f] eqn:Hf;
      [done |].
    assert (p ∈ filter (λ p, point_key p = (x, y)) l) as Hp
      by (rewrite Hf; left).
    apply list_elem_of_filter in Hp as [Hkey Hin]. by exists p.
  - intros (p & Hkey & Hin) Hnil.
    by apply (filter_nil_not_elem_of _ _ p Hnil).
Qed.

Lemma min_same_elements (l l' : list Z) :
  (∀ z, z ∈ l ↔ z ∈ l') → Py.min l = Py.min l'.
Proof.
  intros Hsame. destruct l as [| a l], l' as [| a' l'].
  - done.
  - by destruct (not_elem_of_nil a'); apply Hsame; left.
  - by destruct (not_elem_of_nil a); apply Hsame; left.
  - destruct (min_least (a :: l)) as (m & -> & Hm); [done |].
    destruct (min_least (a' :: l')) as (m' & -> & Hm'); [done |].
    f_equal. apply (is_least_unique m m' (a :: l)); [done |].
    destruct Hm' as [Hin Hle]. split; [by apply Hsame |].
    intros z Hz. by apply Hle, Hsame.
Qed.

Lemma max_same_elements (l l' : list Z) :
  (∀ z, z ∈ l ↔ z ∈ l') → Py.max l = Py.max l'.
Proof.
  intros Hsame. destruct l as [| a l], l' as [| a' l'].
  - done.
  - by destruct (not_elem_of_nil a'); apply Hsame; left.
  - by destruct (not_elem_of_nil a); apply Hsame; left.
  - destruct (max_greatest (a :: l)) as (m & -> & Hm); [done |].
    destruct (max_greatest (a' :: l')) as (m' & -> & Hm'); [done |].
    f_equal. apply (is_greatest_unique m m' (a :: l)); [done |].
    destruct Hm' as [Hin Hle]. split; [by apply Hsame |].
    intros z Hz. by apply Hle, Hsame.
Qed.

Lemma coordinates_of_keys (l : list HeatMapData.t) (z : Z) :
  (z ∈ HeatMapData.grid_x <$> l ↔ ∃ k, k ∈ point_key <$> l ∧ k.1 = z) ∧
  (z ∈ HeatMapData.grid_y <$> l ↔ ∃ k, k ∈ point_key <$> l ∧ k.2 = z).
Proof.
  rewrite !list_elem_of_fmap. split; split.
  - intros (p & -> & Hp). exists (point_key p).
    split; [by apply list_elem_of_fmap_2 | done].
  - intros (k & (p & -> & Hp)%list_elem_of_fmap & <-). by exists p.
  - intros (p & -> & Hp). exists (point_key p).
    split; [by apply list_elem_of_fmap_2 | done].
  - intros (k & (p & -> & Hp)%list_elem_of_fmap & <-). by exists p.
Qed.

(** X20: after an accepted batch, the grid read back from the table is the
    grid of the session's earlier rows followed by the cells of the batch
    in the order of submission, so that the last cell sent for a position
    wins, whatever the order in which the table is read before and
    after. *)
Theorem batch_update_then_grid (sessions : gset string) (session : string)
    (cells : list CellUpdate.t)
    (table : gmap (string * (Z * Z)) HeatMapRow.t)
    (old new : list HeatMapData.t) :
  session ≠ "" → session ∈ sessions → cells ≠ [] →
  old ≡ₚ session_points table session →
  new ≡ₚ session_points
         (HeatMapDataViewSet_batch_update sessions (Some session) cells
            table).2
         session →
  ∃ r r',
    HeatMapDataViewSet_grid new = Return r
    ∧ HeatMapDataViewSet_grid (old ++ (point_of_cell <$> cells)) = Return r'
    ∧ GridResponse.grid r = GridResponse.grid r'
    ∧ GridResponse.min_x r = GridResponse.min_x r'
    ∧ GridResponse.max_x r = GridResponse.max_x r'
    ∧ GridResponse.min_y r = GridResponse.min_y r'
    ∧ GridResponse.max_y r = GridResponse.max_y r'.
Proof.
  intros Hid Hsession Hcells Hold Hnew.
  rewrite batch_update_accepted in Hnew by done. simpl in Hnew.
  set (replayed := old ++ (point_of_cell <$> cells)).
  assert (∀ x y, last_submitted x y new = last_submitted x y replayed)
    as Hlast by (intros x y; by eapply last_submitted_after).
  assert (∀ k, k ∈ point_key <$> new ↔ k ∈ point_key <$> replayed) as Hkeys.
  { intros [x y]. by rewrite <- !last_submitted_is_Some, Hlast. }
  assert (∀ z, z ∈ HeatMapData.grid_x <$> new
               ↔ z ∈ HeatMapData.grid_x <$> replayed) as Hxs.
  { intros z. rewrite (proj1 (coordinates_of_keys new z)),
      (proj1 (coordinates_of_keys replayed z)).
    by setoid_rewrite Hkeys. }
  assert (∀ z, z ∈ HeatMapData.grid_y <$> new
               ↔ z ∈ HeatMapData.grid_y <$> replayed) as Hys.
  { intros z. rewrite (proj2 (coordinates_of_keys new z)),
      (proj2 (coordinates_of_keys replayed z)).
    by setoid_rewrite Hkeys. }
  assert (replayed ≠ []) as Hreplayed.
  { subst replayed. destruct cells; [done |]. by destruct old. }
  assert (new ≠ []) as Hne.
  { intros ->. destruct replayed as [| p replayed']; [done |].
    by destruct (not_elem_of_nil (point_key p)); apply Hkeys; left. }
  assert (HeatMapData.grid_x <$> replayed ≠ []) as Hxs_ne
    by (by destruct replayed).
  assert (HeatMapData.grid_y <$> replayed ≠ []) as Hys_ne
    by (by destruct replayed).
  destruct (min_least _ Hxs_ne) as (min_x & Hmin_x & _).
  destruct (max_greatest _ Hxs_ne) as (max_x & Hmax_x & _).
  destruct (min_least _ Hys_ne) as (min_y & Hmin_y & _).
  destruct (max_greatest _ Hys_ne) as (max_y & Hmax_y & _).
  rewrite (grid_of_bounds replayed min_x max_x min_y max_y) by done.
  rewrite (grid_of_bounds new min_x max_x min_y max_y); try done.
  - do 2 eexists. split_and!; try done. simpl.
    unfold dense_grid. apply list_fmap_ext. intros _ y _.
    apply list_fmap_ext. intros _ x _. unfold expected_cell.
    by rewrite Hlast.
  - rewrite <- Hmin_x. by apply min_same_elements.
  - rewrite <- Hmax_x. by apply max_same_elements.
  - rewrite <- Hmin_y. by apply min_same_elements.
  - rewrite <- Hmax_y. by apply max_same_elements.
Qed.

Lemma batch_update_then_grid_witness :
  let cells :=
    [CellUpdate.Make (Some 1%Z) None (Some (-70)%Z) None None None;
     CellUpdate.Make (Some 1%Z) (Some 0%Z) None (Some "clear") None None] in
  let table' :=
    (HeatMapDataViewSet_batch_update {["s1"]} (Some "s1") cells ∅).2 in
  "s1" ≠ "" ∧ "s1" ∈ ({["s1"]} : gset string) ∧ cells ≠ [] ∧
  [] ≡ₚ session_points ∅ "s1" ∧
  session_points table' "s1" ≡ₚ session_points table' "s1" ∧
  ∃ r r',
    HeatMapDataViewSet_grid (session_points table' "s1") = Return r
    ∧ HeatMapDataViewSet_grid ([] ++ (point_of_cell <$> cells)) = Return r'
    ∧ GridResponse.grid r = GridResponse.grid r'.
Proof.
  intros cells table'.
  assert ("s1" ≠ "") as Hid by discriminate.
  assert ("s1" ∈ ({["s1"]} : gset string)) as Hin
    by apply elem_of_singleton_2, eq_refl.
  assert (cells ≠ []) as Hcells by discriminate.
  assert ([] ≡ₚ session_points ∅ "s1") as Hold.
  { unfold session_points. rewrite map_to_list_empty. reflexivity. }
  assert (session_points table' "s1" ≡ₚ session_points table' "s1") as Hnew
    by reflexivity.
  split_and!; [exact Hid | exact Hin | exact Hcells | exact Hold
              | exact Hnew |].
  destruct (batch_update_then_grid {["s1"]} "s1" cells ∅ []
              (session_points table' "s1") Hid Hin Hcells Hold Hnew)
    as (r & r' & Hr & Hr' & Hgrid & _).
  exists r, r'. split_and!; [exact Hr | exact Hr' | exact Hgrid].
Defined.
